(** * HGCalAnalysis/python/NtupleDataFormat.py: the ntuple adaptor layer

    A shallow embedding of the adaptor classes of NtupleDataFormat.py
    ([_Collection], [_Object], [HGCalNtuple], [Event] and the concrete
    RecHit/SimCluster/LayerCluster/Trackster classes) over a model of the
    part of ROOT's TTree interface that the module calls.

    Python objects that alias the one TTree (every view keeps [self._tree])
    are modelled by passing the tree state explicitly: a read takes the
    tree as it is at the moment of the read, [LoadTree] and [GetEntry]
    return the new tree. Python exceptions are the [Raise] results of an
    error monad. *)

From Stdlib Require Import ZArith QArith Lia Ascii String.
From stdpp Require Import base gmap strings list pretty sorting.

Set Warnings "-register-all".
Local Open Scope string_scope.
Local Open Scope Z_scope.

(** ** Python values and exceptions *)

(** What a branch of the tree holds for one entry, as PyROOT hands it to
    Python: an integer, a float (kept as a rational, no arithmetic is done
    on it), or a std::vector of such values. Python gets a number by value.
    An element that is itself a vector it gets as a proxy, a reference to
    the place of that element in the tree's buffer: [VRef branch path] is
    the proxy of the element reached from branch [branch] by the positions
    of [path]. The stored entries and the buffer hold plain values. *)
Inductive pyval : Type :=
| VInt (z : Z)
| VFloat (q : Q)
| VVec (elems : list pyval)
| VRef (branch : string) (path : list nat).

(** The exceptions the module can raise or let through. [Exception] is the
    bare [raise Exception(msg)] of [_Object._checkIsValid]; the others come
    from attribute lookup, subscripting, string formatting and the use of a
    null ROOT object. *)
Inductive exn : Type :=
| Exception (msg : string)
| AttributeError (name : string)
| IndexError
| TypeError
| ReferenceError.

Inductive result (A : Type) : Type :=
| Ok (a : A)
| Raise (e : exn).
Arguments Ok {A} a.
Arguments Raise {A} e.

Definition bind {A B : Type} (m : result A) (k : A -> result B) : result B :=
  match m with
  | Ok a => k a
  | Raise e => Raise e
  end.

Notation "x <- m ;; k" := (bind m (fun x => k))
  (at level 100, m at next level, right associativity).

(** ** The TTree collaborator (ROOT, outside the repository) *)

(** One stored entry: [nbytes] is what [GetEntry] returns for it (the number
    of bytes read; 0 or negative for an entry that cannot be read), [values]
    the branch values it holds. *)
Record Entry : Type := mkEntry {
  nbytes : Z;
  values : gmap string pyval
}.

(** The tree: [fEntries] is the count [GetEntriesFast] reports, [baskets]
    the stored entries, [fReadEntry] the entry number set by [LoadTree] and
    [buffer] the branch values currently in memory. *)
Record TTree : Type := mkTTree {
  fEntries : Z;
  baskets : list Entry;
  fReadEntry : Z;
  buffer : gmap string pyval
}.

Definition GetEntriesFast (t : TTree) : Z := fEntries t.

(** List lookup at a Python/C++ integer position. *)
Definition lookupZ {A : Type} (l : list A) (i : Z) : option A :=
  if i <? 0 then None else l !! Z.to_nat i.

(** TTree::LoadTree(Long64_t entry): the method first makes [entry] the
    read entry. For a stored entry it returns the entry number. For an
    entry past the end it resets the read entry to -1 and returns -2. A
    negative number stays the read entry and is returned as it is. [entry]
    is the 64-bit argument of the method: the conversion of a Python integer
    that does not fit, which PyROOT refuses with OverflowError before the
    method runs, is not part of this definition. *)
Definition LoadTree (entry : Z) (t : TTree) : Z * TTree :=
  match lookupZ (baskets t) entry with
  | Some _ => (entry, mkTTree (fEntries t) (baskets t) entry (buffer t))
  | None =>
      if entry <? 0
      then (entry, mkTTree (fEntries t) (baskets t) entry (buffer t))
      else (-2, mkTTree (fEntries t) (baskets t) (-1) (buffer t))
  end.

(** TTree::GetEntry: the number of bytes read; 0 when the entry does not
    exist, the entry's non-positive [nbytes] when reading it fails. Only a
    successful read replaces the buffer. *)
Definition GetEntry (entry : Z) (t : TTree) : Z * TTree :=
  match lookupZ (baskets t) entry with
  | Some e =>
      if 0 <? nbytes e
      then (nbytes e, mkTTree (fEntries t) (baskets t) entry (values e))
      else (nbytes e, t)
  | None => (0, t)
  end.

(** The plain value found in [v] by following the positions of [path]. *)
Fixpoint value_at (v : pyval) (path : list nat) : option pyval :=
  match path with
  | [] => Some v
  | k :: rest =>
      match v with
      | VVec elems =>
          match elems !! k with
          | Some x => value_at x rest
          | None => None
          end
      | _ => None
      end
  end.

(** The vector [v] found at [path] of branch [branch], as Python sees it:
    its numbers by value, its elements that are vectors as proxies. *)
Definition seen (branch : string) (path : list nat) (v : pyval) : pyval :=
  match v with
  | VVec elems =>
      VVec (imap (fun k x =>
                    match x with
                    | VVec _ => VRef branch (path ++ [k])
                    | _ => x
                    end) elems)
  | _ => v
  end.

(** What a proxy shows when it is looked at while the tree is [t]: the
    vector that the buffer holds at the proxy's place at that moment.
    [None] when there is no vector at that place any more: nothing is
    defined for such a proxy. *)
Definition deref (t : TTree) (branch : string) (path : list nat)
  : option pyval :=
  match buffer t !! branch with
  | Some v =>
      match value_at v path with
      | Some (VVec elems) => Some (seen branch path (VVec elems))
      | _ => None
      end
  | None => None
  end.

(** [getattr(tree, name)]: the value of branch [name] in the buffer. Every
    caller in the module uses the branch object on the spot, so it is given
    by its content at the moment of the call. *)
Definition tree_getattr (t : TTree) (name : string) : result pyval :=
  match buffer t !! name with
  | Some v => Ok (seen name [] v)
  | None => Raise (AttributeError name)
  end.

(** [hasattr(tree, name)]. *)
Definition tree_hasattr (t : TTree) (name : string) : bool :=
  match tree_getattr t name with
  | Ok _ => true
  | Raise _ => false
  end.

(** [v.size()] on a branch value: only a vector has the method. *)
Definition vec_size (v : pyval) : result Z :=
  match v with
  | VVec elems => Ok (Z.of_nat (length elems))
  | _ => Raise (AttributeError "size")
  end.

(** [v[i]] on a branch value: Python sequence indexing, a negative [i]
    counts from the end, an [i] outside [-len, len) raises IndexError. *)
Definition subscript (v : pyval) (i : Z) : result pyval :=
  match v with
  | VVec elems =>
      let n := Z.of_nat (length elems) in
      if (i <? - n) || (n <=? i) then Raise IndexError
      else match lookupZ elems (if i <? 0 then n + i else i) with
           | Some x => Ok x
           | None => Raise IndexError
           end
  | _ => Raise TypeError
  end.

(** [range(n)] *)
Definition range (n : Z) : list Z := map Z.of_nat (seq 0 (Z.to_nat n)).

(** ** _Object and _Collection *)

(** The concrete record classes; [_Object] itself is the base class. *)
Inductive objclass : Type :=
| C_Object | RecHit | SimCluster | LayerCluster | Trackster.

(** [self.__class__.__name__] *)
Definition class_name (c : objclass) : string :=
  match c with
  | C_Object => "_Object"
  | RecHit => "RecHit"
  | SimCluster => "SimCluster"
  | LayerCluster => "LayerCluster"
  | Trackster => "Trackster"
  end.

(** An [_Object] instance: its class, [_index] and [_prefix]; [_tree] is
    the shared tree, passed to each read. *)
Record _Object : Type := mkObject {
  o_class : objclass;
  o_index : Z;
  o_prefix : string
}.

(** The zero-argument closure [lambda: val] with its captured [val]. *)
Record callable : Type := Lambda { captured_val : pyval }.

(** Calling the closure while the tree is [t]: the body is the captured
    variable. A captured number is returned as it is. A captured proxy is
    returned too, and what the caller finds in it is what the buffer holds
    at the proxy's place at the time of the call. *)
Definition call (f : callable) (t : TTree) : option pyval :=
  match captured_val f with
  | VRef branch path => deref t branch path
  | v => Some v
  end.

Definition _Object_isValid (self : _Object) : bool :=
  negb (o_index self =? -1).

Definition _Object_checkIsValid (self : _Object) : result unit :=
  if negb (_Object_isValid self)
  then Raise (Exception (class_name (o_class self) +:+ " is not valid"))
  else Ok tt.

Definition _Object_getattr (self : _Object) (attr : string) (t : TTree)
  : result callable :=
  _ <- _Object_checkIsValid self ;;
  branch <- tree_getattr t (o_prefix self +:+ "_" +:+ attr) ;;
  val <- subscript branch (o_index self) ;;
  Ok (Lambda val).

Definition _Object_index (self : _Object) : Z := o_index self.

(** A [_Collection] instance: [_sizeBranch], [_objclass] and [_prefix]. *)
Record _Collection : Type := mkCollection {
  c_sizeBranch : string;
  c_objclass : objclass;
  c_prefix : string
}.

Definition _Collection_size (self : _Collection) (t : TTree) : result Z :=
  branch <- tree_getattr t (c_sizeBranch self) ;;
  vec_size branch.

Definition _Collection_len (self : _Collection) (t : TTree) : result Z :=
  _Collection_size self t.

(** [_Object.__init__(tree, index, prefix)] called on class [cls]; the
    [int(index)] of the source is the identity on an integer. *)
Definition _Object_init (cls : objclass) (index : Z) (prefix : string)
  : _Object :=
  mkObject cls index prefix.

(** [__getitem__]: builds the object, with no look at the tree or at the
    size. *)
Definition _Collection_getitem (self : _Collection) (index : Z)
  : result _Object :=
  Ok (_Object_init (c_objclass self) index (c_prefix self)).

(** ** Generators *)

(** A generator object over [for index in range(...)]: not yet started,
    suspended at a [yield] with the rest of the range still to visit, or
    finished. *)
Inductive generator : Type :=
| Created
| Suspended (rest : list Z)
| Finished.

(** [next()] on the generator of [_Collection.__iter__]: [None] stands for
    StopIteration. The size is read when the body starts running, at the
    first [next()]. *)
Definition _Collection_iter_resume (self : _Collection) (rest : list Z)
  : option _Object * generator :=
  match rest with
  | [] => (None, Finished)
  | index :: rest' =>
      (Some (_Object_init (c_objclass self) index (c_prefix self)),
       Suspended rest')
  end.

Definition _Collection_iter_next (self : _Collection) (g : generator)
    (t : TTree) : result (option _Object * generator) * TTree :=
  match g with
  | Created =>
      (n <- _Collection_size self t ;;
       Ok (_Collection_iter_resume self (range n)), t)
  | Suspended rest => (Ok (_Collection_iter_resume self rest), t)
  | Finished => (Ok (None, Finished), t)
  end.

(** Running a generator to exhaustion, as [list(gen)] or a [for] loop with
    an empty body does, over a state [S] that each [next()] may change.
    [None] means that [fuel] calls of [next()] were not enough. *)
Section Consume.
Context {S A : Type}.
Variable next : generator -> S -> result (option A * generator) * S.

Fixpoint consume (fuel : nat) (g : generator) (s : S)
  : option (result (list A) * S) :=
  match fuel with
  | O => None
  | Datatypes.S fuel' =>
      match next g s with
      | (Raise e, s') => Some (Raise e, s')
      | (Ok (None, _), s') => Some (Ok [], s')
      | (Ok (Some x, g'), s') =>
          match consume fuel' g' s' with
          | Some (Ok xs, s'') => Some (Ok (x :: xs), s'')
          | other => other
          end
      end
  end.
End Consume.

(** ** Event *)

(** An [Event] instance: [_entry]; [_tree] is the shared tree. *)
Record Event : Type := mkEvent { _entry : Z }.

Definition Event_entry (self : Event) : Z := _entry self.

Definition Event_event (self : Event) (t : TTree) : result pyval :=
  tree_getattr t "event".

Definition Event_lumi (self : Event) (t : TTree) : result pyval :=
  tree_getattr t "lumi".

Definition Event_run (self : Event) (t : TTree) : result pyval :=
  tree_getattr t "run".

Definition Event_eventId (self : Event) (t : TTree)
  : result (pyval * pyval * pyval) :=
  run <- tree_getattr t "run" ;;
  lumi <- tree_getattr t "lumi" ;;
  event <- tree_getattr t "event" ;;
  Ok (run, lumi, event).

(** [%d] applied to a branch value: an integer in decimal, a float
    truncated towards zero, TypeError for a vector. *)
Definition format_d (v : pyval) : result string :=
  match v with
  | VInt z => Ok (pretty z)
  | VFloat q => Ok (pretty (Z.quot (Qnum q) (Z.pos (Qden q))))
  | VVec _ => Raise TypeError
  | VRef _ _ => Raise TypeError
  end.

Definition Event_eventIdStr (self : Event) (t : TTree) : result string :=
  id <- Event_eventId self t ;;
  let '(run, lumi, event) := id in
  r <- format_d run ;;
  l <- format_d lumi ;;
  e <- format_d event ;;
  Ok (r +:+ ":" +:+ l +:+ ":" +:+ e).

(** The concrete collections: the size branch is [prefix_pt], for
    tracksters [prefix_Id]. *)
Definition RecHits_init (prefix : string) : _Collection :=
  mkCollection (prefix +:+ "_pt") RecHit prefix.

Definition SimClusters_init (prefix : string) : _Collection :=
  mkCollection (prefix +:+ "_pt") SimCluster prefix.

Definition LayerClusters_init (prefix : string) : _Collection :=
  mkCollection (prefix +:+ "_pt") LayerCluster prefix.

Definition Tracksters_init (prefix : string) : _Collection :=
  mkCollection (prefix +:+ "_Id") Trackster prefix.

(** The factory methods; [None] for [prefix] takes the default argument. *)
Definition Event_recHits (self : Event) (prefix : option string)
  : _Collection :=
  RecHits_init (default "rechit" prefix).

Definition Event_layerClusters (self : Event) (prefix : option string)
  : _Collection :=
  LayerClusters_init (default "layerCluster" prefix).

Definition Event_simClusters (self : Event) (prefix : option string)
  : _Collection :=
  SimClusters_init (default "simcluster" prefix).

Definition Event_tracksters (self : Event) (prefix : option string)
  : _Collection :=
  Tracksters_init (default "trackster" prefix).

(** ** HGCalNtuple *)

(** An [HGCalNtuple] instance: the tree it opened and the entry count it
    read at construction. The tree inside is the one every view reads. *)
Record HGCalNtuple : Type := mkHGCalNtuple {
  _tree : TTree;
  _entries : Z
}.

Definition set_tree (self : HGCalNtuple) (t : TTree) : HGCalNtuple :=
  mkHGCalNtuple t (_entries self).

(** [__init__(fileName, tree)] over the files [disk] holds: a file is the
    map of the trees in it. [TFile.Open] and [Get] return a null object for
    a missing name, and calling a method on it raises. *)
Definition HGCalNtuple_init (disk : gmap string (gmap string TTree))
    (fileName tree : string) : result HGCalNtuple :=
  match disk !! fileName with
  | None => Raise ReferenceError
  | Some file =>
      match file !! tree with
      | None => Raise ReferenceError
      | Some t => Ok (mkHGCalNtuple t (GetEntriesFast t))
      end
  end.

Definition HGCalNtuple_tree (self : HGCalNtuple) : TTree := _tree self.

Definition HGCalNtuple_nevents (self : HGCalNtuple) : Z := _entries self.

Definition HGCalNtuple_hasRawRecHits (self : HGCalNtuple) : bool :=
  tree_hasattr (_tree self) "rechit_raw_pt".

(** The body of [__iter__] from the head of the [for] loop, with [rest]
    the part of [range(self._entries)] not yet visited: [break] finishes
    the generator, [continue] goes on with the next [jentry], [yield]
    suspends it. *)
Fixpoint HGCalNtuple_iter_loop (rest : list Z) (t : TTree)
  : (option Event * generator) * TTree :=
  match rest with
  | [] => ((None, Finished), t)
  | jentry :: rest' =>
      let '(ientry, t1) := LoadTree jentry t in
      if ientry <? 0 then ((None, Finished), t1)
      else
        let '(nb, t2) := GetEntry jentry t1 in
        if nb <=? 0 then HGCalNtuple_iter_loop rest' t2
        else ((Some (mkEvent jentry), Suspended rest'), t2)
  end.

(** [next()] on the generator of [HGCalNtuple.__iter__]. *)
Definition HGCalNtuple_iter_next (g : generator) (self : HGCalNtuple)
  : result (option Event * generator) * HGCalNtuple :=
  match g with
  | Created =>
      let '(r, t) := HGCalNtuple_iter_loop (range (_entries self)) (_tree self) in
      (Ok r, set_tree self t)
  | Suspended rest =>
      let '(r, t) := HGCalNtuple_iter_loop rest (_tree self) in
      (Ok r, set_tree self t)
  | Finished => (Ok (None, Finished), self)
  end.

(** [getEvent(index)]: Python's [None] is [None]. The statement under
    [if nb <= 0:] is the expression [None], which does nothing, so both
    branches of that test go on to the final [return]. *)
Definition HGCalNtuple_getEvent (index : Z) (self : HGCalNtuple)
  : option Event * HGCalNtuple :=
  let '(ientry, t1) := LoadTree index (_tree self) in
  if ientry <? 0 then (None, set_tree self t1)
  else
    let '(nb, t2) := GetEntry ientry t1 in
    let fallthrough := if nb <=? 0 then tt else tt in
    match fallthrough with
    | tt => (Some (mkEvent ientry), set_tree self t2)
    end.

(** ** What a client can do with an open ntuple *)

(** The operations of the module on an ntuple and the views made from it.
    A read through a view is evaluated on the ntuple's tree. *)
Inductive action : Type :=
| ActNext (g : generator)
| ActGetEvent (index : Z)
| ActNevents
| ActHasRawRecHits
| ActEventId (ev : Event)
| ActSize (c : _Collection)
| ActIterCollection (c : _Collection) (g : generator)
| ActGetattr (o : _Object) (attr : string).

Definition perform (a : action) (self : HGCalNtuple) : HGCalNtuple :=
  match a with
  | ActNext g => snd (HGCalNtuple_iter_next g self)
  | ActGetEvent index => snd (HGCalNtuple_getEvent index self)
  | ActNevents => let _ := HGCalNtuple_nevents self in self
  | ActHasRawRecHits => let _ := HGCalNtuple_hasRawRecHits self in self
  | ActEventId ev => let _ := Event_eventId ev (_tree self) in self
  | ActSize c => let _ := _Collection_size c (_tree self) in self
  | ActIterCollection c g =>
      set_tree self (snd (_Collection_iter_next c g (_tree self)))
  | ActGetattr o attr => let _ := _Object_getattr o attr (_tree self) in self
  end.

Definition perform_all (acts : list action) (self : HGCalNtuple)
  : HGCalNtuple :=
  foldl (fun s a => perform a s) self acts.

(** ** The column names of getDataFrame *)

(** [s.split(sep)] for a separator of one character. *)
Fixpoint str_split (sep : ascii) (s : string) : list string :=
  match s with
  | EmptyString => [EmptyString]
  | String a s' =>
      if Ascii.eqb a sep then EmptyString :: str_split sep s'
      else match str_split sep s' with
           | h :: t => String a h :: t
           | [] => [String a EmptyString]
           end
  end.

(** [sep.join(parts)] *)
Fixpoint str_join (sep : string) (parts : list string) : string :=
  match parts with
  | [] => EmptyString
  | p :: rest =>
      match rest with
      | [] => p
      | _ :: _ => p +:+ sep +:+ str_join sep rest
      end
  end.

(** The first two statements of [Event.getDataFrame(prefix)], over the
    names [GetListOfBranches] gives: the branches whose name starts with
    [prefix_], and for each its column name, the branch name without its
    first [_]-separated component. (The rest of the method hands these to
    numpy and pandas and is not modelled.) *)
Definition Event_getDataFrame_branches (listOfBranches : list string)
    (prefix : string) : list string :=
  List.filter (fun br => String.prefix (prefix +:+ "_") br) listOfBranches.

Definition Event_getDataFrame_names (branches : list string) : list string :=
  map (fun br => str_join "_" (tail (str_split "_"%char br))) branches.

(** ** Specification-side notions *)

(** Entry [j] exists among the stored entries and [GetEntry] succeeds on
    it (returns a positive number of bytes). *)
Definition readable (stored : list Entry) (j : Z) : bool :=
  match lookupZ stored j with
  | Some e => 0 <? nbytes e
  | None => false
  end.

(** The result of [getattr(tree, name)] when the buffer holds [vals]. *)
Definition branch_of (vals : gmap string pyval) (name : string)
  : result pyval :=
  match vals !! name with
  | Some v => Ok (seen name [] v)
  | None => Raise (AttributeError name)
  end.

(** [c] occurs in [s]. *)
Fixpoint contains_char (c : ascii) (s : string) : bool :=
  match s with
  | EmptyString => false
  | String a s' => Ascii.eqb a c || contains_char c s'
  end.

(** ** Example stores *)

Definition q15 : pyval := VFloat (3 # 2).
Definition q25 : pyval := VFloat (5 # 2).
Definition q35 : pyval := VFloat (7 # 2).

(** Branch values of an entry with run/lumi/event numbers and a "hit"
    group whose records have the given energies. *)
Definition hit_values (run : Z) (energies : list pyval)
  : gmap string pyval :=
  <["run" := VInt run]> (<["lumi" := VInt 1]> (<["event" := VInt (100 + run)]>
  (<["hit_pt" := VVec energies]> (<["hit_energy" := VVec energies]> ∅)))).

Definition good_entry (run : Z) : Entry :=
  mkEntry 64 (hit_values run [q15; q25]).

Definition bad_entry (nb : Z) (run : Z) : Entry :=
  mkEntry nb (hit_values run [q15; q25]).

(** Five entries, the one at position 3 unreadable ([GetEntry] gives -1). *)
Definition tree5 : TTree :=
  mkTTree 5
    [good_entry 10; good_entry 11; good_entry 12; bad_entry (-1) 13;
     good_entry 14]
    (-1) ∅.

Definition disk5 : gmap string (gmap string TTree) :=
  {[ "ntuple.root" := {[ "ana/hgc" := tree5 ]} ]}.

Definition ntuple5 : HGCalNtuple := mkHGCalNtuple tree5 5.

(** Two readable entries with different contents. *)
Definition tree2 : TTree :=
  mkTTree 2
    [mkEntry 64 (hit_values 1 [q15; q25; q35]);
     mkEntry 48 (hit_values 2 [q35; q15])]
    (-1) ∅.

Definition ntuple2 : HGCalNtuple := mkHGCalNtuple tree2 2.

(** A one-entry tree, its entry loaded, with a "hit" group that has a
    scalar count branch [hit_n = 2] next to [hit_energy = [1.5, 2.5]]. *)
Definition hit_n_values : gmap string pyval :=
  <["hit_n" := VInt 2]> (<["hit_energy" := VVec [q15; q25]]> ∅).

Definition tree_hit_n : TTree :=
  mkTTree 1 [mkEntry 32 hit_n_values] 0 hit_n_values.




(** * Properties *)

(** ** The tree collaborator *)

Lemma lookupZ_Some_nonneg {A : Type} (l : list A) (i : Z) (x : A) :
  lookupZ l i = Some x -> 0 <= i.
Proof.
  unfold lookupZ. destruct (Z.ltb_spec i 0); [discriminate | lia].
Qed.

Lemma lookupZ_of_nat {A : Type} (l : list A) (k : nat) :
  lookupZ l (Z.of_nat k) = l !! k.
Proof.
  unfold lookupZ. destruct (Z.ltb_spec (Z.of_nat k) 0); [lia |].
  by rewrite Nat2Z.id.
Qed.

Lemma LoadTree_baskets (entry : Z) (t : TTree) :
  baskets (snd (LoadTree entry t)) = baskets t.
Proof.
  unfold LoadTree. destruct (lookupZ _ _); [done |].
  by destruct (entry <? 0).
Qed.

Lemma GetEntry_baskets (entry : Z) (t : TTree) :
  baskets (snd (GetEntry entry t)) = baskets t.
Proof.
  unfold GetEntry. destruct (lookupZ _ _) as [e|]; [| done].
  by destruct (0 <? nbytes e).
Qed.

Lemma readable_of_nat_ge (stored : list Entry) (a k : nat) :
  stored !! a = None -> (a <= k)%nat -> readable stored (Z.of_nat k) = false.
Proof.
  intros Ha Hk. unfold readable. rewrite lookupZ_of_nat.
  apply lookup_ge_None in Ha.
  by rewrite (proj2 (lookup_ge_None stored k)); [| lia].
Qed.

Lemma filter_readable_beyond (stored : list Entry) (n a b : nat) :
  stored !! a = None -> (a <= b)%nat ->
  List.filter (readable stored) (map Z.of_nat (seq b n)) = [].
Proof.
  intros Ha. revert b. induction n as [| n IH]; intros b Hb; [done |].
  cbn [seq map List.filter].
  rewrite (readable_of_nat_ge stored a b Ha Hb). apply IH. lia.
Qed.

(** ** Iterating over the entries *)

Section EventIteration.
Variable stored : list Entry.

(** One visit of the loop head at an entry that does not exist: break,
    with the read entry reset. *)
Lemma iter_loop_missing (k : nat) (rest : list Z) (t : TTree) :
  baskets t = stored -> stored !! k = None ->
  HGCalNtuple_iter_loop (Z.of_nat k :: rest) t
  = ((None, Finished), mkTTree (fEntries t) stored (-1) (buffer t)).
Proof.
  intros Hb Hk. cbn [HGCalNtuple_iter_loop]. unfold LoadTree.
  rewrite Hb, lookupZ_of_nat, Hk.
  by destruct (Z.ltb_spec (Z.of_nat k) 0); [lia |].
Qed.

(** At an entry that exists but cannot be read: continue. *)
Lemma iter_loop_unreadable (k : nat) (rest : list Z) (t : TTree) (e : Entry) :
  baskets t = stored -> stored !! k = Some e -> nbytes e <= 0 ->
  HGCalNtuple_iter_loop (Z.of_nat k :: rest) t
  = HGCalNtuple_iter_loop rest
      (mkTTree (fEntries t) stored (Z.of_nat k) (buffer t)).
Proof.
  intros Hb Hk Hn. cbn [HGCalNtuple_iter_loop]. unfold LoadTree, GetEntry.
  rewrite Hb, lookupZ_of_nat, Hk.
  destruct (Z.ltb_spec (Z.of_nat k) 0); [lia |].
  cbn [baskets]. rewrite lookupZ_of_nat, Hk.
  destruct (Z.ltb_spec 0 (nbytes e)); [lia |].
  by destruct (Z.leb_spec (nbytes e) 0); [| lia].
Qed.

(** At a readable entry: yield its event, with the entry in the buffer. *)
Lemma iter_loop_readable (k : nat) (rest : list Z) (t : TTree) (e : Entry) :
  baskets t = stored -> stored !! k = Some e -> 0 < nbytes e ->
  HGCalNtuple_iter_loop (Z.of_nat k :: rest) t
  = ((Some (mkEvent (Z.of_nat k)), Suspended rest),
     mkTTree (fEntries t) stored (Z.of_nat k) (values e)).
Proof.
  intros Hb Hk Hn. cbn [HGCalNtuple_iter_loop]. unfold LoadTree, GetEntry.
  rewrite Hb, lookupZ_of_nat, Hk.
  destruct (Z.ltb_spec (Z.of_nat k) 0); [lia |].
  cbn [baskets fEntries]. rewrite lookupZ_of_nat, Hk.
  destruct (Z.ltb_spec 0 (nbytes e)); [| lia].
  by destruct (Z.leb_spec (nbytes e) 0); [lia |].
Qed.

(** From any point of the range on, the generator yields the readable
    entries that are left, in order, and then stops. *)
Lemma consume_events_from (n : nat) :
  forall (a fuel : nat) (self : HGCalNtuple),
    baskets (_tree self) = stored -> (n < fuel)%nat ->
    exists self',
      consume HGCalNtuple_iter_next fuel
        (Suspended (map Z.of_nat (seq a n))) self
      = Some (Ok (map mkEvent
                    (List.filter (readable stored) (map Z.of_nat (seq a n)))),
              self').
Proof.
  induction n as [| n IH]; intros a fuel self Hb Hfuel.
  - destruct fuel as [| fuel]; [lia |]. eexists. reflexivity.
  - destruct fuel as [| fuel]; [lia |].
    cbn [seq map List.filter].
    destruct (stored !! a) as [e |] eqn:Ha.
    + destruct (Z.ltb_spec 0 (nbytes e)) as [Hpos | Hneg].
      * assert (Hr : readable stored (Z.of_nat a) = true).
        { unfold readable. rewrite lookupZ_of_nat, Ha.
          by apply Z.ltb_lt. }
        rewrite Hr.
        destruct (IH (S a) fuel
                    (set_tree self
                       (mkTTree (fEntries (_tree self)) stored (Z.of_nat a)
                          (values e))))
          as [self' Hrun]; [done | lia |].
        exists self'. cbn [consume HGCalNtuple_iter_next].
        rewrite (iter_loop_readable a _ _ e Hb Ha Hpos).
        by rewrite Hrun.
      * assert (Hr : readable stored (Z.of_nat a) = false).
        { unfold readable. rewrite lookupZ_of_nat, Ha.
          by apply Z.ltb_ge. }
        rewrite Hr.
        destruct (IH (S a) (S fuel)
                    (set_tree self
                       (mkTTree (fEntries (_tree self)) stored (Z.of_nat a)
                          (buffer (_tree self)))))
          as [self' Hrun]; [done | lia |].
        exists self'. rewrite <- Hrun.
        cbn [consume HGCalNtuple_iter_next].
        by rewrite (iter_loop_unreadable a _ _ e Hb Ha Hneg).
    + rewrite (readable_of_nat_ge stored a a Ha (le_n a)).
      rewrite (filter_readable_beyond stored n a (S a) Ha); [| lia].
      eexists. cbn [consume HGCalNtuple_iter_next].
      rewrite (iter_loop_missing a _ _ Hb Ha). reflexivity.
Qed.
End EventIteration.

(** C1 (as amended): sequential iteration skips an entry whose GetEntry
    returns a value <= 0 and goes on with the entries after it. Run to
    exhaustion, the generator of [HGCalNtuple.__iter__] yields an Event for
    exactly the readable entries among [range(self._entries)], in ascending
    order, and raises nothing. *)
Theorem iter_skips_unreadable_entries (self : HGCalNtuple) (fuel : nat) :
  (Z.to_nat (_entries self) < fuel)%nat ->
  exists self',
    consume HGCalNtuple_iter_next fuel Created self
    = Some (Ok (map mkEvent
                  (List.filter (readable (baskets (_tree self)))
                     (range (_entries self)))),
            self').
Proof.
  intros Hfuel.
  destruct (consume_events_from (baskets (_tree self))
              (Z.to_nat (_entries self)) 0 fuel self eq_refl Hfuel)
    as [self' Hrun].
  exists self'. unfold range. rewrite <- Hrun.
  destruct fuel as [| fuel]; [lia |]. reflexivity.
Qed.

Lemma iter_skips_unreadable_entries_witness :
  (Z.to_nat (_entries ntuple5) < 6)%nat /\
  exists self',
    consume HGCalNtuple_iter_next 6 Created ntuple5
    = Some (Ok [mkEvent 0; mkEvent 1; mkEvent 2; mkEvent 4], self').
Proof.
  split; [vm_compute; lia |].
  apply (iter_skips_unreadable_entries ntuple5 6). vm_compute. lia.
Defined.

(** C1 (as stated) fails: over the 5-entry store whose entry 3 is
    unreadable the iteration yields entries 0, 1, 2 and 4, not 0, 1, 2. *)
Lemma iter_does_not_stop_at_unreadable :
  let yielded := fst <$> consume HGCalNtuple_iter_next 6 Created ntuple5 in
  yielded = Some (Ok [mkEvent 0; mkEvent 1; mkEvent 2; mkEvent 4]) /\
  yielded <> Some (Ok [mkEvent 0; mkEvent 1; mkEvent 2]).
Proof. vm_compute. split; [reflexivity | discriminate]. Qed.

(** ** Random access and stale views *)

Lemma getEvent_existing (index : Z) (self : HGCalNtuple) (e : Entry) :
  lookupZ (baskets (_tree self)) index = Some e ->
  HGCalNtuple_getEvent index self
  = (Some (mkEvent index),
     set_tree self
       (snd (GetEntry index
               (mkTTree (fEntries (_tree self)) (baskets (_tree self)) index
                  (buffer (_tree self)))))).
Proof.
  intros He. pose proof (lookupZ_Some_nonneg _ _ _ He) as Hi.
  unfold HGCalNtuple_getEvent, LoadTree. rewrite He.
  destruct (Z.ltb_spec index 0); [lia |].
  destruct (GetEntry index _) as [nb t2]. cbn [snd].
  by destruct (nb <=? 0).
Qed.

Lemma getEvent_loads_buffer (index : Z) (self : HGCalNtuple) (e : Entry) :
  lookupZ (baskets (_tree self)) index = Some e -> 0 < nbytes e ->
  buffer (_tree (snd (HGCalNtuple_getEvent index self))) = values e.
Proof.
  intros He Hn. rewrite (getEvent_existing index self e He).
  cbn [snd set_tree _tree]. unfold GetEntry. cbn [baskets]. rewrite He.
  by destruct (Z.ltb_spec 0 (nbytes e)); [| lia].
Qed.

(** C2 (as amended): no view keeps a check of the loaded entry. A read
    through a view is evaluated on whatever entry the tree holds at the
    moment of the read: after [getEvent(j)] has loaded a readable entry j, a
    view made for any entry i still reports [entry() = i], and a read of its
    run, lumi or event number, of the size of one of its collections or of
    an attribute of one of its records gives what that read gives on the
    branch values of entry j: the data of entry j, or the exception that the
    read raises on them. *)
Theorem stale_view_reads_loaded_entry
    (self : HGCalNtuple) (i j : Z) (e : Entry) :
  lookupZ (baskets (_tree self)) j = Some e -> 0 < nbytes e ->
  let t' := _tree (snd (HGCalNtuple_getEvent j self)) in
  let stale := mkEvent i in
  Event_entry stale = i /\
  Event_run stale t' = branch_of (values e) "run" /\
  Event_lumi stale t' = branch_of (values e) "lumi" /\
  Event_event stale t' = branch_of (values e) "event" /\
  (forall c : _Collection,
      _Collection_size c t'
      = (branch <- branch_of (values e) (c_sizeBranch c) ;; vec_size branch)) /\
  (forall (o : _Object) (attr : string),
      _Object_isValid o = true ->
      _Object_getattr o attr t'
      = (branch <- branch_of (values e) (o_prefix o +:+ "_" +:+ attr) ;;
         val <- subscript branch (o_index o) ;;
         Ok (Lambda val))).
Proof.
  intros He Hn t' stale.
  pose proof (getEvent_loads_buffer j self e He Hn) as Hbuf.
  fold t' in Hbuf.
  unfold Event_run, Event_lumi, Event_event, _Collection_size,
    _Object_getattr, _Object_checkIsValid, tree_getattr, branch_of.
  rewrite Hbuf. repeat split; try reflexivity.
  intros o attr Hv. by rewrite Hv.
Qed.

Lemma stale_view_reads_loaded_entry_witness :
  lookupZ (baskets (_tree ntuple2)) 1
  = Some (mkEntry 48 (hit_values 2 [q35; q15])) /\
  Event_run (mkEvent 0) (_tree (snd (HGCalNtuple_getEvent 1 ntuple2)))
  = Ok (VInt 2).
Proof.
  split; [reflexivity |].
  refine (proj1 (proj2 (stale_view_reads_loaded_entry ntuple2 0 1
                          (mkEntry 48 (hit_values 2 [q35; q15])) _ _))).
  - reflexivity.
  - simpl. lia.
Defined.

(** C2 (as stated) fails: an Event and a record obtained at entry 0 are
    read after entry 1 has been loaded; the reads raise nothing and return
    the run number and the hit energy of entry 1. *)
Lemma stale_view_returns_other_entry :
  let at0 := HGCalNtuple_getEvent 0 ntuple2 in
  let at1 := HGCalNtuple_getEvent 1 (snd at0) in
  let hit0 := _Collection_getitem (Event_recHits (mkEvent 0) (Some "hit")) 0 in
  fst at0 = Some (mkEvent 0) /\
  hit0 = Ok (mkObject RecHit 0 "hit") /\
  Event_run (mkEvent 0) (_tree (snd at0)) = Ok (VInt 1) /\
  _Object_getattr (mkObject RecHit 0 "hit") "energy" (_tree (snd at0))
  = Ok (Lambda q15) /\
  Event_run (mkEvent 0) (_tree (snd at1)) = Ok (VInt 2) /\
  _Object_getattr (mkObject RecHit 0 "hit") "energy" (_tree (snd at1))
  = Ok (Lambda q35).
Proof. vm_compute. repeat split. Qed.

(** On an entry that exists but cannot be read, [getEvent] still returns
    an Event. *)
Lemma getEvent_short_read (index : Z) (self : HGCalNtuple) (e : Entry) :
  lookupZ (baskets (_tree self)) index = Some e -> nbytes e <= 0 ->
  fst (GetEntry index (snd (LoadTree index (_tree self)))) <= 0 /\
  fst (HGCalNtuple_getEvent index self) = Some (mkEvent index).
Proof.
  intros He Hn. split.
  - unfold LoadTree, GetEntry. rewrite He. cbn [snd baskets]. rewrite He.
    by destruct (Z.ltb_spec 0 (nbytes e)); [lia |].
  - by rewrite (getEvent_existing index self e He).
Qed.

(** C3: the code at the failing input. Entry 3 of the 5-entry store cannot
    be read ([GetEntry] returns -1), and [getEvent(3)] returns an Event for
    entry 3 all the same: no error, and not even [None]. *)
Theorem getEvent_unreadable_entry_returns_event :
  fst (GetEntry 3 (snd (LoadTree 3 (_tree ntuple5)))) = -1 /\
  fst (HGCalNtuple_getEvent 3 ntuple5) = Some (mkEvent 3) /\
  fst (HGCalNtuple_getEvent 7 ntuple5) = None.
Proof. vm_compute. repeat split. Qed.

(** ** Collections *)

(** C4 (as amended): [__getitem__] makes no range check. For every integer
    k, inside or outside [0, length()), it returns a record view of the
    collection's object class whose [index()] is k and whose prefix is the
    collection's prefix; it never raises. *)
Theorem getitem_any_index (self : _Collection) (k : Z) :
  exists o : _Object,
    _Collection_getitem self k = Ok o /\
    _Object_index o = k /\
    o_prefix o = c_prefix self /\
    o_class o = c_objclass self.
Proof. eexists. repeat split. Qed.

(** C4 (as stated) fails: in a collection of length 2, [at(2)] and
    [at(-1)] return record views instead of failing. *)
Lemma getitem_out_of_range_returns_view :
  let t := _tree (snd (HGCalNtuple_getEvent 0 ntuple5)) in
  let hits := Event_recHits (mkEvent 0) (Some "hit") in
  _Collection_size hits t = Ok 2 /\
  _Collection_getitem hits 2 = Ok (mkObject RecHit 2 "hit") /\
  _Collection_getitem hits (-1) = Ok (mkObject RecHit (-1) "hit") /\
  _Collection_getitem hits 2 <> Raise IndexError.
Proof. vm_compute. repeat split. discriminate. Qed.

(** C5 (as amended): [size()] and [len()] are the number of elements of
    the sequence that the size branch holds for the loaded entry, obtained
    by calling the sequence's own [size()]. *)
Theorem size_is_length_of_size_branch
    (self : _Collection) (t : TTree) (elems : list pyval) :
  tree_getattr t (c_sizeBranch self) = Ok (VVec elems) ->
  _Collection_size self t = Ok (Z.of_nat (length elems)) /\
  _Collection_len self t = Ok (Z.of_nat (length elems)).
Proof.
  intros Hb. unfold _Collection_len, _Collection_size. by rewrite Hb.
Qed.

Lemma size_is_length_of_size_branch_witness :
  tree_getattr (_tree (snd (HGCalNtuple_getEvent 0 ntuple2))) "hit_pt"
  = Ok (VVec [q15; q25; q35]) /\
  _Collection_size (RecHits_init "hit")
    (_tree (snd (HGCalNtuple_getEvent 0 ntuple2))) = Ok 3.
Proof.
  split; [reflexivity |].
  apply (size_is_length_of_size_branch (RecHits_init "hit")
           (_tree (snd (HGCalNtuple_getEvent 0 ntuple2))) [q15; q25; q35]).
  reflexivity.
Defined.

(** C5 (as stated) fails: with a size field that stores the count itself,
    [hit_n = 2], [size()] does not return 2 but raises, because an integer
    has no [size()] method. *)
Lemma size_of_scalar_count_raises :
  let hits := mkCollection "hit_n" RecHit "hit" in
  tree_getattr tree_hit_n "hit_n" = Ok (VInt 2) /\
  _Collection_size hits tree_hit_n = Raise (AttributeError "size") /\
  _Collection_size hits tree_hit_n <> Ok 2.
Proof. vm_compute. repeat split. discriminate. Qed.

(** The size branch of the concrete collections is an attribute sequence of
    the group: [pt], or [Id] for tracksters. *)
Lemma concrete_size_branches (prefix : string) :
  c_sizeBranch (RecHits_init prefix) = prefix +:+ "_pt" /\
  c_sizeBranch (SimClusters_init prefix) = prefix +:+ "_pt" /\
  c_sizeBranch (LayerClusters_init prefix) = prefix +:+ "_pt" /\
  c_sizeBranch (Tracksters_init prefix) = prefix +:+ "_Id".
Proof. repeat split. Qed.

Lemma consume_collection_from (self : _Collection) (t : TTree)
    (rest : list Z) :
  forall fuel : nat,
    (length rest < fuel)%nat ->
    consume (_Collection_iter_next self) fuel (Suspended rest) t
    = Some (Ok (map (fun k => _Object_init (c_objclass self) k (c_prefix self))
                  rest),
            t).
Proof.
  induction rest as [| k rest IH]; intros fuel Hfuel.
  - destruct fuel as [| fuel]; [cbn in Hfuel; lia | reflexivity].
  - destruct fuel as [| fuel]; [cbn in Hfuel; lia |].
    cbn [consume _Collection_iter_next _Collection_iter_resume].
    rewrite IH; [reflexivity | cbn in Hfuel; lia].
Qed.

Lemma range_length (n : Z) : length (range n) = Z.to_nat n.
Proof. unfold range. by rewrite length_map, length_seq. Qed.

Lemma range_lookup (n : Z) (k : nat) :
  (k < Z.to_nat n)%nat -> range n !! k = Some (Z.of_nat k).
Proof.
  intros Hk. unfold range. rewrite list_lookup_fmap.
  by rewrite lookup_seq_lt.
Qed.

(** C7: run to exhaustion on an entry where [size()] is n, the generator
    of [_Collection.__iter__] yields n record views, the k-th (from 0) with
    index k, and then stops; the tree is left as it was, and a fresh
    iteration on it yields the same views again. *)
Theorem collection_iter_ascending_restartable
    (self : _Collection) (t : TTree) (n : Z) (fuel : nat) :
  _Collection_size self t = Ok n ->
  (Z.to_nat n < fuel)%nat ->
  let objs :=
    map (fun k => _Object_init (c_objclass self) k (c_prefix self)) (range n) in
  consume (_Collection_iter_next self) fuel Created t = Some (Ok objs, t) /\
  length objs = Z.to_nat n /\
  (forall k : nat, (k < Z.to_nat n)%nat ->
     _Object_index <$> objs !! k = Some (Z.of_nat k)) /\
  (forall r t1,
     consume (_Collection_iter_next self) fuel Created t = Some (r, t1) ->
     consume (_Collection_iter_next self) fuel Created t1 = Some (r, t1)).
Proof.
  intros Hsize Hfuel objs.
  assert (Hrun : consume (_Collection_iter_next self) fuel Created t
                 = Some (Ok objs, t)).
  { subst objs.
    rewrite <- (consume_collection_from self t (range n) fuel)
      by (rewrite range_length; lia).
    destruct fuel as [| fuel]; [lia |].
    cbn [consume _Collection_iter_next]. by rewrite Hsize. }
  repeat split.
  - exact Hrun.
  - subst objs. by rewrite length_map, range_length.
  - intros k Hk. subst objs. rewrite list_lookup_fmap.
    by rewrite (range_lookup n k Hk).
  - intros r t1 Hr. rewrite Hrun in Hr. injection Hr as <- <-. exact Hrun.
Qed.

Lemma collection_iter_ascending_restartable_witness :
  let t := _tree (snd (HGCalNtuple_getEvent 0 ntuple2)) in
  _Collection_size (RecHits_init "hit") t = Ok 3 /\
  consume (_Collection_iter_next (RecHits_init "hit")) 5 Created t
  = Some (Ok [mkObject RecHit 0 "hit"; mkObject RecHit 1 "hit";
              mkObject RecHit 2 "hit"], t).
Proof.
  split; [reflexivity |].
  refine (proj1 (collection_iter_ascending_restartable (RecHits_init "hit")
                   (_tree (snd (HGCalNtuple_getEvent 0 ntuple2))) 3 5 _ _)).
  - reflexivity.
  - vm_compute. lia.
Defined.

(** ** Records *)

(** C6: a record with index -1 is not valid, and every attribute read on
    it raises the bare [Exception] "<class> is not valid", whatever the
    attribute; a valid record asked for a field the tree does not have
    raises [AttributeError] instead, a different exception. *)
Theorem invalid_record_raises_exception
    (self : _Object) (attr : string) (t : TTree) :
  o_index self = -1 ->
  _Object_isValid self = false /\
  _Object_getattr self attr t
  = Raise (Exception (class_name (o_class self) +:+ " is not valid")) /\
  (forall other : _Object,
      _Object_isValid other = true ->
      buffer t !! (o_prefix other +:+ "_" +:+ attr) = None ->
      _Object_getattr other attr t
      = Raise (AttributeError (o_prefix other +:+ "_" +:+ attr)) /\
      _Object_getattr other attr t <> _Object_getattr self attr t).
Proof.
  intros Hidx.
  assert (Hv : _Object_isValid self = false).
  { unfold _Object_isValid. by rewrite Hidx. }
  assert (Hself : _Object_getattr self attr t
                  = Raise (Exception
                             (class_name (o_class self) +:+ " is not valid"))).
  { unfold _Object_getattr, _Object_checkIsValid. by rewrite Hv. }
  split; [exact Hv |]. split; [exact Hself |].
  intros other Hother Hmissing.
  assert (Hget : _Object_getattr other attr t
                 = Raise (AttributeError (o_prefix other +:+ "_" +:+ attr))).
  { unfold _Object_getattr, _Object_checkIsValid, tree_getattr.
    by rewrite Hother, Hmissing. }
  split; [exact Hget |]. rewrite Hget, Hself. discriminate.
Qed.

Lemma invalid_record_raises_exception_witness :
  o_index (mkObject RecHit (-1) "hit") = -1 /\
  _Object_getattr (mkObject RecHit (-1) "hit") "energy" tree_hit_n
  = Raise (Exception "RecHit is not valid").
Proof.
  split; [reflexivity |].
  refine (proj1 (proj2 (invalid_record_raises_exception
                          (mkObject RecHit (-1) "hit") "energy" tree_hit_n _))).
  reflexivity.
Defined.





(** C10 (as amended): [isValid()] is false for the index -1 and for no
    other index. A record whose index is negative and not -1 is reported
    valid, and an attribute read on it counts from the end of the field's
    sequence: with a sequence of [len] elements and [-len <= index], the
    read returns the element at position [len + index], so index -2 gives
    the one before the last; with [index < -len] the read raises
    IndexError. *)
Theorem negative_index_counts_from_end
    (self : _Object) (attr : string) (t : TTree) (elems : list pyval) :
  tree_getattr t (o_prefix self +:+ "_" +:+ attr) = Ok (VVec elems) ->
  (_Object_isValid self = false <-> o_index self = -1) /\
  (o_index self < 0 -> o_index self <> -1 ->
   _Object_isValid self = true /\
   (- Z.of_nat (length elems) <= o_index self ->
    exists x : pyval,
      elems !! Z.to_nat (Z.of_nat (length elems) + o_index self) = Some x /\
      _Object_getattr self attr t = Ok (Lambda x)) /\
   (o_index self < - Z.of_nat (length elems) ->
    _Object_getattr self attr t = Raise IndexError)).
Proof.
  intros Hb. split.
  { unfold _Object_isValid.
    destruct (Z.eqb_spec (o_index self) (-1)); cbn [negb]; split;
      intros H; done. }
  intros Hneg Hne.
  assert (Hv : _Object_isValid self = true).
  { unfold _Object_isValid. by destruct (Z.eqb_spec (o_index self) (-1)). }
  split; [exact Hv |].
  unfold _Object_getattr, _Object_checkIsValid. rewrite Hv, Hb.
  cbn [negb bind subscript]. split.
  - intros Hlen.
    destruct (lookup_lt_is_Some_2 elems
                (Z.to_nat (Z.of_nat (length elems) + o_index self)))
      as [x Hx]; [lia |].
    exists x. split; [exact Hx |].
    destruct (Z.ltb_spec (o_index self) (- Z.of_nat (length elems))); [lia |].
    destruct (Z.leb_spec (Z.of_nat (length elems)) (o_index self)); [lia |].
    cbn [orb]. destruct (Z.ltb_spec (o_index self) 0); [| lia].
    unfold lookupZ.
    destruct (Z.ltb_spec (Z.of_nat (length elems) + o_index self) 0); [lia |].
    by rewrite Hx.
  - intros Hlen.
    by destruct (Z.ltb_spec (o_index self) (- Z.of_nat (length elems)));
      [| lia].
Qed.

Lemma negative_index_counts_from_end_witness :
  let t := _tree (snd (HGCalNtuple_getEvent 0 ntuple2)) in
  tree_getattr t "hit_energy" = Ok (VVec [q15; q25; q35]) /\
  _Object_isValid (mkObject RecHit (-2) "hit") = true /\
  _Object_getattr (mkObject RecHit (-2) "hit") "energy" t = Ok (Lambda q25).
Proof.
  split; [reflexivity |].
  destruct (negative_index_counts_from_end (mkObject RecHit (-2) "hit")
              "energy" (_tree (snd (HGCalNtuple_getEvent 0 ntuple2)))
              [q15; q25; q35])
    as [_ Hnegative]; [reflexivity |].
  destruct Hnegative as [Hv [Hin _]]; [simpl; lia | simpl; lia |].
  split; [exact Hv |].
  destruct Hin as [x [Hx Hget]]; [simpl; lia |].
  rewrite Hget. f_equal. f_equal. simpl in Hx. congruence.
Defined.

(** C10 (as stated) fails: the index -4 is negative and not -1, the record
    is reported valid, and the read on a sequence of three elements selects
    no element: it raises IndexError. *)
Lemma negative_index_below_length_raises :
  let t := _tree (snd (HGCalNtuple_getEvent 0 ntuple2)) in
  tree_getattr t "hit_energy" = Ok (VVec [q15; q25; q35]) /\
  _Object_isValid (mkObject RecHit (-4) "hit") = true /\
  _Object_getattr (mkObject RecHit (-4) "hit") "energy" t = Raise IndexError /\
  forall f : callable,
    _Object_getattr (mkObject RecHit (-4) "hit") "energy" t <> Ok f.
Proof. vm_compute. repeat split. discriminate. Qed.

(** ** The entry count *)

Lemma perform_entries (a : action) (self : HGCalNtuple) :
  _entries (perform a self) = _entries self.
Proof.
  destruct a as [g | index | | | ev | c | c g | o attr]; try reflexivity.
  - destruct g as [| rest |]; cbn [perform HGCalNtuple_iter_next];
      try reflexivity.
    + by destruct (HGCalNtuple_iter_loop _ _) as [r t].
    + by destruct (HGCalNtuple_iter_loop _ _) as [r t].
  - cbn [perform]. unfold HGCalNtuple_getEvent.
    destruct (LoadTree index (_tree self)) as [ientry t1].
    destruct (ientry <? 0); [reflexivity |].
    destruct (GetEntry ientry t1) as [nb t2]. by destruct (nb <=? 0).
Qed.

Lemma perform_all_entries (acts : list action) :
  forall self : HGCalNtuple,
    _entries (perform_all acts self) = _entries self.
Proof.
  induction acts as [| a acts IH]; intros self; [reflexivity |].
  cbn [perform_all foldl]. fold (perform_all acts (perform a self)).
  by rewrite IH, perform_entries.
Qed.

(** C8: [nevents()] is the count [GetEntriesFast] gave when the ntuple was
    constructed, and it is still that value after any sequence of
    operations on the ntuple and its views (steps of the entry iteration,
    [getEvent], reads through events, collections and records). *)
Theorem nevents_fixed_at_construction
    (disk : gmap string (gmap string TTree)) (fileName tree : string)
    (self : HGCalNtuple) (acts : list action) :
  HGCalNtuple_init disk fileName tree = Ok self ->
  exists (file : gmap string TTree) (t : TTree),
    disk !! fileName = Some file /\ file !! tree = Some t /\
    HGCalNtuple_nevents self = GetEntriesFast t /\
    HGCalNtuple_nevents (perform_all acts self) = GetEntriesFast t.
Proof.
  unfold HGCalNtuple_init. intros Hinit.
  destruct (disk !! fileName) as [file |]; [| discriminate].
  destruct (file !! tree) as [t |] eqn:Ht; [| discriminate].
  injection Hinit as <-. exists file, t.
  repeat split; [exact Ht |].
  unfold HGCalNtuple_nevents. by rewrite perform_all_entries.
Qed.

Lemma nevents_fixed_at_construction_witness :
  HGCalNtuple_init disk5 "ntuple.root" "ana/hgc" = Ok ntuple5 /\
  HGCalNtuple_nevents
    (perform_all [ActNext Created; ActGetEvent 4; ActGetEvent 3;
                  ActSize (RecHits_init "hit"); ActNext (Suspended [1; 2])]
       ntuple5) = 5.
Proof.
  split; [vm_compute; reflexivity |].
  destruct (nevents_fixed_at_construction disk5 "ntuple.root" "ana/hgc"
              ntuple5
              [ActNext Created; ActGetEvent 4; ActGetEvent 3;
               ActSize (RecHits_init "hit"); ActNext (Suspended [1; 2])])
    as [file [t [Hfile [Htree [Hn Hafter]]]]].
  - vm_compute. reflexivity.
  - rewrite Hafter, <- Hn. reflexivity.
Defined.

(** * Further properties of the module *)

(** ** What the operations leave alone *)

Lemma set_tree_same (self : HGCalNtuple) : set_tree self (_tree self) = self.
Proof. by destruct self. Qed.

Lemma iter_loop_baskets (rest : list Z) :
  forall t : TTree,
    baskets (snd (HGCalNtuple_iter_loop rest t)) = baskets t.
Proof.
  induction rest as [| jentry rest IH]; intros t; [reflexivity |].
  cbn [HGCalNtuple_iter_loop].
  pose proof (LoadTree_baskets jentry t) as HL.
  destruct (LoadTree jentry t) as [ientry t1]. cbn [snd] in HL.
  destruct (ientry <? 0); [exact HL |].
  pose proof (GetEntry_baskets jentry t1) as HG.
  destruct (GetEntry jentry t1) as [nb t2]. cbn [snd] in HG.
  destruct (nb <=? 0).
  - rewrite IH. congruence.
  - cbn [snd]. congruence.
Qed.

Lemma iter_next_baskets (g : generator) (self : HGCalNtuple) :
  baskets (_tree (snd (HGCalNtuple_iter_next g self)))
  = baskets (_tree self).
Proof.
  destruct g as [| rest |]; cbn [HGCalNtuple_iter_next]; [| | reflexivity].
  - pose proof (iter_loop_baskets (range (_entries self)) (_tree self)) as H.
    by destruct (HGCalNtuple_iter_loop _ _) as [r t].
  - pose proof (iter_loop_baskets rest (_tree self)) as H.
    by destruct (HGCalNtuple_iter_loop _ _) as [r t].
Qed.

Lemma getEvent_baskets (index : Z) (self : HGCalNtuple) :
  baskets (_tree (snd (HGCalNtuple_getEvent index self)))
  = baskets (_tree self).
Proof.
  unfold HGCalNtuple_getEvent.
  pose proof (LoadTree_baskets index (_tree self)) as HL.
  destruct (LoadTree index (_tree self)) as [ientry t1]. cbn [snd] in HL.
  destruct (ientry <? 0); [exact HL |].
  pose proof (GetEntry_baskets ientry t1) as HG.
  destruct (GetEntry ientry t1) as [nb t2]. cbn [snd] in HG.
  destruct (nb <=? 0); cbn [snd set_tree _tree]; congruence.
Qed.

Lemma perform_baskets (a : action) (self : HGCalNtuple) :
  baskets (_tree (perform a self)) = baskets (_tree self).
Proof.
  destruct a as [g | index | | | ev | c | c g | o attr]; try reflexivity.
  - apply iter_next_baskets.
  - apply getEvent_baskets.
  - cbn [perform set_tree _tree]. by destruct g.
Qed.

Lemma perform_all_baskets (acts : list action) :
  forall self : HGCalNtuple,
    baskets (_tree (perform_all acts self)) = baskets (_tree self).
Proof.
  induction acts as [| a acts IH]; intros self; [reflexivity |].
  cbn [perform_all foldl]. fold (perform_all acts (perform a self)).
  by rewrite IH, perform_baskets.
Qed.

(** ** Random access *)

(** X1: [getEvent(index)] with an index in the 64-bit range that is not
    the position of a stored entry (negative, or past the end) returns
    [None] and loads nothing: the stored entries, the buffer and the entry
    counts stay as they were. Only the tree's read entry moves: to -1 for an
    index past the end, to the index itself for a negative index. *)
Theorem getEvent_missing_entry_returns_None
    (index : Z) (self : HGCalNtuple) :
  lookupZ (baskets (_tree self)) index = None ->
  - 2 ^ 63 <= index < 2 ^ 63 ->
  fst (HGCalNtuple_getEvent index self) = None /\
  snd (HGCalNtuple_getEvent index self)
  = mkHGCalNtuple
      (mkTTree (fEntries (_tree self)) (baskets (_tree self))
         (if index <? 0 then index else -1) (buffer (_tree self)))
      (_entries self).
Proof.
  intros Hmiss _. unfold HGCalNtuple_getEvent, LoadTree. rewrite Hmiss.
  by destruct (Z.ltb_spec index 0) as [Hneg | Hpos];
    [apply Z.ltb_lt in Hneg; rewrite Hneg |].
Qed.

Lemma getEvent_missing_entry_returns_None_witness :
  let at0 := snd (HGCalNtuple_getEvent 0 ntuple5) in
  fReadEntry (_tree at0) = 0 /\
  lookupZ (baskets (_tree at0)) 7 = None /\
  fst (HGCalNtuple_getEvent 7 at0) = None /\
  fReadEntry (_tree (snd (HGCalNtuple_getEvent 7 at0))) = -1 /\
  fReadEntry (_tree (snd (HGCalNtuple_getEvent (-5) at0))) = -5 /\
  buffer (_tree (snd (HGCalNtuple_getEvent 7 at0))) = buffer (_tree at0).
Proof.
  split; [reflexivity |]. split; [reflexivity |].
  destruct (getEvent_missing_entry_returns_None 7
              (snd (HGCalNtuple_getEvent 0 ntuple5)))
    as [Hnone Hstate]; [reflexivity | lia |].
  split; [exact Hnone |]. rewrite Hstate.
  split; [reflexivity |]. split; reflexivity.
Defined.

(** X2: [getEvent(index)] on a stored entry returns an Event whose
    [entry()] is [index] and makes [index] the tree's read entry; when the
    entry is readable, [eventId()] through the returned Event is the
    (run, lumi, event) triple of that entry. *)
Theorem getEvent_returns_event_of_entry
    (index : Z) (self : HGCalNtuple) (e : Entry) :
  lookupZ (baskets (_tree self)) index = Some e ->
  exists ev : Event,
    fst (HGCalNtuple_getEvent index self) = Some ev /\
    Event_entry ev = index /\
    fReadEntry (_tree (snd (HGCalNtuple_getEvent index self))) = index /\
    (0 < nbytes e ->
     Event_eventId ev (_tree (snd (HGCalNtuple_getEvent index self)))
     = (run <- branch_of (values e) "run" ;;
        lumi <- branch_of (values e) "lumi" ;;
        event <- branch_of (values e) "event" ;;
        Ok (run, lumi, event))).
Proof.
  intros He. exists (mkEvent index).
  split; [by rewrite (getEvent_existing index self e He) |].
  split; [reflexivity |]. split.
  - rewrite (getEvent_existing index self e He).
    cbn [snd set_tree _tree]. unfold GetEntry. cbn [baskets]. rewrite He.
    by destruct (0 <? nbytes e).
  - intros Hn. unfold Event_eventId, tree_getattr, branch_of.
    by rewrite (getEvent_loads_buffer index self e He Hn).
Qed.

Lemma getEvent_returns_event_of_entry_witness :
  lookupZ (baskets (_tree ntuple5)) 4 = Some (good_entry 14) /\
  exists ev : Event,
    fst (HGCalNtuple_getEvent 4 ntuple5) = Some ev /\ Event_entry ev = 4.
Proof.
  split; [reflexivity |].
  destruct (getEvent_returns_event_of_entry 4 ntuple5 (good_entry 14))
    as [ev [Hev [Hentry _]]]; [reflexivity |].
  exists ev. by split.
Defined.

(** X3: random access does not depend on what was done before: after any
    sequence of operations on the ntuple, [getEvent(j)] on a readable entry
    j leaves exactly the branch values of entry j in the tree's buffer. *)
Theorem getEvent_loads_entry_after_any_history
    (acts : list action) (self : HGCalNtuple) (j : Z) (e : Entry) :
  lookupZ (baskets (_tree self)) j = Some e -> 0 < nbytes e ->
  buffer (_tree (snd (HGCalNtuple_getEvent j (perform_all acts self))))
  = values e.
Proof.
  intros He Hn. apply getEvent_loads_buffer; [| exact Hn].
  by rewrite perform_all_baskets.
Qed.

Lemma getEvent_loads_entry_after_any_history_witness :
  lookupZ (baskets (_tree ntuple2)) 0
  = Some (mkEntry 64 (hit_values 1 [q15; q25; q35])) /\
  buffer (_tree (snd (HGCalNtuple_getEvent 0
                        (perform_all [ActGetEvent 1; ActNext Created]
                           ntuple2))))
  = hit_values 1 [q15; q25; q35].
Proof.
  split; [reflexivity |].
  apply (getEvent_loads_entry_after_any_history
           [ActGetEvent 1; ActNext Created] ntuple2 0
           (mkEntry 64 (hit_values 1 [q15; q25; q35]))).
  - reflexivity.
  - simpl. lia.
Defined.

(** ** More on iterating over the entries *)

(** X4: with an entry count of zero (or a negative one) the iteration
    yields nothing at its first step and never calls the tree: the ntuple is
    returned unchanged. *)
Theorem iter_over_empty_store (self : HGCalNtuple) (fuel : nat) :
  _entries self <= 0 -> fuel <> O ->
  consume HGCalNtuple_iter_next fuel Created self = Some (Ok [], self).
Proof.
  intros Hn Hfuel. destruct fuel as [| fuel]; [done |].
  cbn [consume HGCalNtuple_iter_next]. unfold range.
  replace (Z.to_nat (_entries self)) with O by lia.
  cbn. by rewrite set_tree_same.
Qed.

Lemma iter_over_empty_store_witness :
  _entries (mkHGCalNtuple tree5 0) <= 0 /\
  consume HGCalNtuple_iter_next 1 Created (mkHGCalNtuple tree5 0)
  = Some (Ok [], mkHGCalNtuple tree5 0).
Proof.
  split; [simpl; lia |].
  apply (iter_over_empty_store (mkHGCalNtuple tree5 0) 1);
    [simpl; lia | discriminate].
Defined.

Lemma iter_loop_yields_loaded (rest : list Z) :
  forall (t t' : TTree) (ev : Event) (g : generator),
    HGCalNtuple_iter_loop rest t = ((Some ev, g), t') ->
    exists e : Entry,
      lookupZ (baskets t) (_entry ev) = Some e /\ 0 < nbytes e /\
      buffer t' = values e /\ fReadEntry t' = _entry ev.
Proof.
  induction rest as [| jentry rest IH]; intros t t' ev g Hloop;
    [discriminate |].
  cbn [HGCalNtuple_iter_loop] in Hloop. unfold LoadTree in Hloop.
  destruct (lookupZ (baskets t) jentry) as [e |] eqn:He;
    [| by destruct (jentry <? 0) eqn:Hj; [rewrite Hj in Hloop |]].
  destruct (jentry <? 0); [discriminate |].
  unfold GetEntry in Hloop. cbn [baskets] in Hloop. rewrite He in Hloop.
  destruct (Z.ltb_spec 0 (nbytes e)) as [Hpos | Hneg].
  - destruct (Z.leb_spec (nbytes e) 0); [lia |].
    injection Hloop as <- <- <-. exists e. by repeat split.
  - destruct (Z.leb_spec (nbytes e) 0); [| lia].
    apply IH in Hloop. exact Hloop.
Qed.

(** X5: whenever a step of the entry iteration yields an Event, that
    Event's entry is a stored, readable entry, and it is the one the tree
    holds at that moment: the read entry is the Event's entry and the buffer
    has that entry's branch values. *)
Theorem iter_next_yields_loaded_event
    (g g' : generator) (self self' : HGCalNtuple) (ev : Event) :
  HGCalNtuple_iter_next g self = (Ok (Some ev, g'), self') ->
  exists e : Entry,
    lookupZ (baskets (_tree self)) (Event_entry ev) = Some e /\
    0 < nbytes e /\
    buffer (_tree self') = values e /\
    fReadEntry (_tree self') = Event_entry ev.
Proof.
  intros Hnext. destruct g as [| rest |]; cbn [HGCalNtuple_iter_next] in Hnext.
  - destruct (HGCalNtuple_iter_loop _ _) as [[o g0] t] eqn:Hloop.
    injection Hnext as -> -> <-.
    exact (iter_loop_yields_loaded _ _ _ _ _ Hloop).
  - destruct (HGCalNtuple_iter_loop _ _) as [[o g0] t] eqn:Hloop.
    injection Hnext as -> -> <-.
    exact (iter_loop_yields_loaded _ _ _ _ _ Hloop).
  - discriminate.
Qed.

Lemma iter_next_yields_loaded_event_witness :
  HGCalNtuple_iter_next (Suspended [3; 4]) ntuple5
  = (Ok (Some (mkEvent 4), Suspended []),
     mkHGCalNtuple
       (mkTTree 5 (baskets tree5) 4 (hit_values 14 [q15; q25])) 5) /\
  exists e : Entry,
    lookupZ (baskets (_tree ntuple5)) 4 = Some e /\ 0 < nbytes e.
Proof.
  split; [reflexivity |].
  destruct (iter_next_yields_loaded_event (Suspended [3; 4]) (Suspended [])
              ntuple5
              (mkHGCalNtuple
                 (mkTTree 5 (baskets tree5) 4 (hit_values 14 [q15; q25])) 5)
              (mkEvent 4) eq_refl)
    as [e [He [Hn _]]].
  exists e. by split.
Defined.

Lemma filter_range_sorted (f : Z -> bool) (n : nat) :
  forall a : nat,
    StronglySorted Z.lt (List.filter f (map Z.of_nat (seq a n))) /\
    Forall (fun z => Z.of_nat a <= z < Z.of_nat a + Z.of_nat n)
      (List.filter f (map Z.of_nat (seq a n))).
Proof.
  induction n as [| n IH]; intros a.
  - split; constructor.
  - destruct (IH (S a)) as [Hs Hr]. cbn [seq map List.filter].
    assert (Hr' : Forall
                    (fun z => Z.of_nat a <= z < Z.of_nat a + Z.of_nat (S n))
                    (List.filter f (map Z.of_nat (seq (S a) n)))).
    { eapply Forall_impl; [exact Hr |]. cbn beta. intros z Hz. lia. }
    destruct (f (Z.of_nat a)).
    + split.
      * constructor; [exact Hs |].
        eapply Forall_impl; [exact Hr |]. cbn beta. intros z Hz. lia.
      * constructor; [lia | exact Hr'].
    + by split.
Qed.

(** X6: the entry numbers of the Events that the iteration yields are
    strictly increasing and all lie in [0, nevents()): no entry comes twice,
    none out of order, none outside the count taken at construction. *)
Theorem iter_yields_increasing_entries_in_range
    (self : HGCalNtuple) (fuel : nat) :
  (Z.to_nat (_entries self) < fuel)%nat ->
  exists (evs : list Event) (self' : HGCalNtuple),
    consume HGCalNtuple_iter_next fuel Created self = Some (Ok evs, self') /\
    StronglySorted Z.lt (map Event_entry evs) /\
    Forall (fun ev => 0 <= Event_entry ev < HGCalNtuple_nevents self) evs.
Proof.
  intros Hfuel.
  destruct (consume_events_from (baskets (_tree self))
              (Z.to_nat (_entries self)) 0 fuel self eq_refl Hfuel)
    as [self' Hrun].
  destruct (filter_range_sorted (readable (baskets (_tree self)))
              (Z.to_nat (_entries self)) 0) as [Hs Hr].
  eexists. exists self'. split.
  - rewrite <- Hrun. destruct fuel as [| fuel]; [lia |]. reflexivity.
  - split.
    + rewrite map_map. cbn [Event_entry _entry]. by rewrite map_id.
    + apply Forall_map. eapply Forall_impl; [exact Hr |]. cbn beta.
      unfold Event_entry, HGCalNtuple_nevents. cbn [_entry]. intros z Hz. lia.
Qed.

Lemma iter_yields_increasing_entries_in_range_witness :
  (Z.to_nat (_entries ntuple5) < 6)%nat /\
  exists (evs : list Event) (self' : HGCalNtuple),
    consume HGCalNtuple_iter_next 6 Created ntuple5 = Some (Ok evs, self') /\
    StronglySorted Z.lt (map Event_entry evs).
Proof.
  split; [vm_compute; lia |].
  destruct (iter_yields_increasing_entries_in_range ntuple5 6)
    as [evs [self' [Hrun [Hs _]]]]; [vm_compute; lia |].
  exists evs, self'. by split.
Defined.

Lemma filter_readable_all (stored : list Entry) (n : nat) :
  Forall (fun e => 0 < nbytes e) stored ->
  forall a : nat,
    (a + n <= length stored)%nat ->
    List.filter (readable stored) (map Z.of_nat (seq a n))
    = map Z.of_nat (seq a n).
Proof.
  intros Hall. induction n as [| n IH]; intros a Hlen; [reflexivity |].
  cbn [seq map List.filter].
  destruct (lookup_lt_is_Some_2 stored a) as [e He]; [lia |].
  assert (Hr : readable stored (Z.of_nat a) = true).
  { unfold readable. rewrite lookupZ_of_nat, He. apply Z.ltb_lt.
    rewrite Forall_forall in Hall. apply Hall.
    by apply list_elem_of_lookup_2 with a. }
  rewrite Hr, IH; [reflexivity | lia].
Qed.

(** X7: when the entry count taken at construction is the number of stored
    entries and every stored entry is readable, the iteration yields one
    Event per entry, for the entries 0, 1, ..., nevents()-1 in this order. *)
Theorem iter_yields_every_entry_of_readable_store
    (self : HGCalNtuple) (fuel : nat) :
  _entries self = Z.of_nat (length (baskets (_tree self))) ->
  Forall (fun e => 0 < nbytes e) (baskets (_tree self)) ->
  (Z.to_nat (_entries self) < fuel)%nat ->
  exists self' : HGCalNtuple,
    consume HGCalNtuple_iter_next fuel Created self
    = Some (Ok (map mkEvent (range (HGCalNtuple_nevents self))), self').
Proof.
  intros Hcount Hall Hfuel.
  destruct (consume_events_from (baskets (_tree self))
              (Z.to_nat (_entries self)) 0 fuel self eq_refl Hfuel)
    as [self' Hrun].
  exists self'. unfold HGCalNtuple_nevents, range.
  rewrite (filter_readable_all _ _ Hall 0) in Hrun by lia.
  rewrite <- Hrun. destruct fuel as [| fuel]; [lia |]. reflexivity.
Qed.

Lemma iter_yields_every_entry_of_readable_store_witness :
  _entries ntuple2 = Z.of_nat (length (baskets (_tree ntuple2))) /\
  exists self' : HGCalNtuple,
    consume HGCalNtuple_iter_next 3 Created ntuple2
    = Some (Ok [mkEvent 0; mkEvent 1], self').
Proof.
  split; [reflexivity |].
  apply (iter_yields_every_entry_of_readable_store ntuple2 3).
  - reflexivity.
  - repeat constructor.
  - vm_compute. lia.
Defined.

Lemma iter_loop_depends_on_baskets (rest : list Z) :
  forall t1 t2 : TTree,
    baskets t1 = baskets t2 ->
    fst (HGCalNtuple_iter_loop rest t1) = fst (HGCalNtuple_iter_loop rest t2).
Proof.
  induction rest as [| jentry rest IH]; intros t1 t2 Hb; [reflexivity |].
  cbn [HGCalNtuple_iter_loop]. unfold LoadTree. rewrite Hb.
  destruct (lookupZ (baskets t2) jentry) as [e |] eqn:He;
    [| by destruct (jentry <? 0) eqn:Hj; [rewrite Hj |]].
  destruct (jentry <? 0); [reflexivity |].
  unfold GetEntry. cbn [baskets]. rewrite He.
  destruct (0 <? nbytes e).
  - by destruct (nbytes e <=? 0); [apply IH |].
  - by destruct (nbytes e <=? 0); [apply IH |].
Qed.

Lemma iter_next_entries (g : generator) (self : HGCalNtuple) :
  _entries (snd (HGCalNtuple_iter_next g self)) = _entries self.
Proof. exact (perform_entries (ActNext g) self). Qed.

Lemma iter_next_depends_on_store (g : generator) (s1 s2 : HGCalNtuple) :
  baskets (_tree s1) = baskets (_tree s2) -> _entries s1 = _entries s2 ->
  fst (HGCalNtuple_iter_next g s1) = fst (HGCalNtuple_iter_next g s2).
Proof.
  intros Hb Hn. destruct g as [| rest |]; cbn [HGCalNtuple_iter_next];
    [| | reflexivity].
  - rewrite Hn.
    pose proof (iter_loop_depends_on_baskets (range (_entries s2))
                  (_tree s1) (_tree s2) Hb) as H.
    destruct (HGCalNtuple_iter_loop _ (_tree s1)) as [r1 t1].
    destruct (HGCalNtuple_iter_loop _ (_tree s2)) as [r2 t2].
    cbn [fst] in *. congruence.
  - pose proof (iter_loop_depends_on_baskets rest (_tree s1) (_tree s2) Hb)
      as H.
    destruct (HGCalNtuple_iter_loop _ (_tree s1)) as [r1 t1].
    destruct (HGCalNtuple_iter_loop _ (_tree s2)) as [r2 t2].
    cbn [fst] in *. congruence.
Qed.

Lemma consume_events_depends_on_store (fuel : nat) :
  forall (g : generator) (s1 s2 : HGCalNtuple),
    baskets (_tree s1) = baskets (_tree s2) -> _entries s1 = _entries s2 ->
    fst <$> consume HGCalNtuple_iter_next fuel g s1
    = fst <$> consume HGCalNtuple_iter_next fuel g s2.
Proof.
  induction fuel as [| fuel IH]; intros g s1 s2 Hb Hn; [reflexivity |].
  cbn [consume].
  pose proof (iter_next_depends_on_store g s1 s2 Hb Hn) as Hr.
  pose proof (iter_next_baskets g s1) as Hb1.
  pose proof (iter_next_baskets g s2) as Hb2.
  pose proof (iter_next_entries g s1) as Hn1.
  pose proof (iter_next_entries g s2) as Hn2.
  destruct (HGCalNtuple_iter_next g s1) as [r1 s1'].
  destruct (HGCalNtuple_iter_next g s2) as [r2 s2'].
  cbn [fst snd] in *. subst r2.
  destruct r1 as [[[x |] g'] | err]; [| reflexivity | reflexivity].
  assert (Hrec : fst <$> consume HGCalNtuple_iter_next fuel g' s1'
                 = fst <$> consume HGCalNtuple_iter_next fuel g' s2')
    by (apply IH; congruence).
  destruct (consume HGCalNtuple_iter_next fuel g' s1') as [[q1 u1] |];
    destruct (consume HGCalNtuple_iter_next fuel g' s2') as [[q2 u2] |];
    cbn in Hrec; try discriminate; [| reflexivity].
  injection Hrec as ->. by destruct q2.
Qed.

Lemma consume_events_preserves_store (fuel : nat) :
  forall (g : generator) (self self' : HGCalNtuple)
         (r : result (list Event)),
    consume HGCalNtuple_iter_next fuel g self = Some (r, self') ->
    baskets (_tree self') = baskets (_tree self) /\
    _entries self' = _entries self.
Proof.
  induction fuel as [| fuel IH]; intros g self self' r Hrun; [discriminate |].
  cbn [consume] in Hrun.
  pose proof (iter_next_baskets g self) as Hb.
  pose proof (iter_next_entries g self) as Hn.
  destruct (HGCalNtuple_iter_next g self) as [r1 s1]. cbn [snd] in *.
  destruct r1 as [[[x |] g'] | err].
  - destruct (consume HGCalNtuple_iter_next fuel g' s1) as [[q u] |] eqn:Hrec;
      [| discriminate].
    destruct (IH _ _ _ _ Hrec) as [Hb' Hn'].
    destruct q; injection Hrun as <- <-; split; congruence.
  - injection Hrun as <- <-. by split.
  - injection Hrun as <- <-. by split.
Qed.

(** X8: the entry iteration keeps its position in the generator, not in
    the tree: whatever operations (random access with [getEvent], steps of
    another iteration, reads) are performed on the ntuple before a generator
    is resumed, the generator goes on to yield the same Events as it would
    have without them. *)
Theorem iter_unaffected_by_interleaved_operations
    (acts : list action) (fuel : nat) (g : generator) (self : HGCalNtuple) :
  fst <$> consume HGCalNtuple_iter_next fuel g (perform_all acts self)
  = fst <$> consume HGCalNtuple_iter_next fuel g self.
Proof.
  apply consume_events_depends_on_store.
  - apply perform_all_baskets.
  - apply perform_all_entries.
Qed.

(** X9: the entry iteration can be repeated: once a loop over the ntuple
    has run to its end, a fresh iteration over the ntuple as the first loop
    left it yields the same Events again, from entry 0 on. *)
Theorem iter_again_yields_same_events
    (fuel : nat) (self self' : HGCalNtuple) (r : result (list Event)) :
  consume HGCalNtuple_iter_next fuel Created self = Some (r, self') ->
  fst <$> consume HGCalNtuple_iter_next fuel Created self' = Some r.
Proof.
  intros Hrun.
  destruct (consume_events_preserves_store fuel Created self self' r Hrun)
    as [Hb Hn].
  rewrite (consume_events_depends_on_store fuel Created self' self Hb Hn).
  by rewrite Hrun.
Qed.

Lemma iter_again_yields_same_events_witness :
  let first := consume HGCalNtuple_iter_next 6 Created ntuple5 in
  exists self' : HGCalNtuple,
    first = Some (Ok [mkEvent 0; mkEvent 1; mkEvent 2; mkEvent 4], self') /\
    fst <$> consume HGCalNtuple_iter_next 6 Created self'
    = Some (Ok [mkEvent 0; mkEvent 1; mkEvent 2; mkEvent 4]).
Proof.
  eexists. split; [vm_compute; reflexivity |].
  apply (iter_again_yields_same_events 6 ntuple5).
  vm_compute. reflexivity.
Defined.

(** ** More on records and collections *)

Lemma getattr_valid (self : _Object) (attr : string) (t : TTree) :
  _Object_isValid self = true ->
  _Object_getattr self attr t
  = (branch <- tree_getattr t (o_prefix self +:+ "_" +:+ attr) ;;
     val <- subscript branch (o_index self) ;;
     Ok (Lambda val)).
Proof.
  intros Hv. unfold _Object_getattr, _Object_checkIsValid. by rewrite Hv.
Qed.

(** X10: on a valid record, an attribute read whose index is at or past
    the end of the field's sequence, or below minus its length, raises
    IndexError; so does the read on the view that [__getitem__] hands out
    for the position equal to the length of the sequence. *)
Theorem getattr_index_out_of_range_raises
    (self : _Object) (attr : string) (t : TTree) (elems : list pyval) :
  _Object_isValid self = true ->
  tree_getattr t (o_prefix self +:+ "_" +:+ attr) = Ok (VVec elems) ->
  o_index self < - Z.of_nat (length elems) \/
  Z.of_nat (length elems) <= o_index self ->
  _Object_getattr self attr t = Raise IndexError.
Proof.
  intros Hv Hb Hrange. rewrite (getattr_valid self attr t Hv), Hb.
  cbn [bind subscript].
  destruct (Z.ltb_spec (o_index self) (- Z.of_nat (length elems)));
    [reflexivity |].
  destruct (Z.leb_spec (Z.of_nat (length elems)) (o_index self));
    [reflexivity | lia].
Qed.

Lemma getattr_index_out_of_range_raises_witness :
  let t := _tree (snd (HGCalNtuple_getEvent 0 ntuple5)) in
  tree_getattr t "hit_energy" = Ok (VVec [q15; q25]) /\
  _Object_getattr (mkObject RecHit 2 "hit") "energy" t = Raise IndexError.
Proof.
  split; [reflexivity |].
  apply (getattr_index_out_of_range_raises (mkObject RecHit 2 "hit") "energy"
           (_tree (snd (HGCalNtuple_getEvent 0 ntuple5))) [q15; q25]).
  - reflexivity.
  - reflexivity.
  - right. simpl. lia.
Defined.

(** X11: on a valid record, an attribute read of a field whose branch
    holds a single number, not a sequence, raises TypeError: the number
    cannot be subscripted. *)
Theorem getattr_of_scalar_branch_raises
    (self : _Object) (attr : string) (t : TTree) (v : pyval) :
  _Object_isValid self = true ->
  tree_getattr t (o_prefix self +:+ "_" +:+ attr) = Ok v ->
  (forall elems : list pyval, v <> VVec elems) ->
  _Object_getattr self attr t = Raise TypeError.
Proof.
  intros Hv Hb Hscalar. rewrite (getattr_valid self attr t Hv), Hb.
  cbn [bind]. destruct v as [z | q | elems | b p]; try reflexivity.
  by destruct (Hscalar elems).
Qed.

Lemma getattr_of_scalar_branch_raises_witness :
  tree_getattr tree_hit_n "hit_n" = Ok (VInt 2) /\
  _Object_getattr (mkObject RecHit 0 "hit") "n" tree_hit_n = Raise TypeError.
Proof.
  split; [reflexivity |].
  apply (getattr_of_scalar_branch_raises (mkObject RecHit 0 "hit") "n"
           tree_hit_n (VInt 2)).
  - reflexivity.
  - reflexivity.
  - discriminate.
Defined.

Lemma getattr_in_range (cls : objclass) (prefix attr : string) (t : TTree)
    (elems : list pyval) (k : nat) (x : pyval) :
  tree_getattr t (prefix +:+ "_" +:+ attr) = Ok (VVec elems) ->
  elems !! k = Some x ->
  _Object_getattr (_Object_init cls (Z.of_nat k) prefix) attr t
  = Ok (Lambda x).
Proof.
  intros Hb Hx. pose proof (lookup_lt_Some _ _ _ Hx) as Hk.
  rewrite getattr_valid.
  - cbn [_Object_init o_prefix o_index]. rewrite Hb. cbn [bind subscript].
    destruct (Z.ltb_spec (Z.of_nat k) (- Z.of_nat (length elems))); [lia |].
    destruct (Z.leb_spec (Z.of_nat (length elems)) (Z.of_nat k)); [lia |].
    cbn [orb]. destruct (Z.ltb_spec (Z.of_nat k) 0); [lia |].
    by rewrite lookupZ_of_nat, Hx.
  - unfold _Object_isValid, _Object_init. cbn [o_index].
    by destruct (Z.eqb_spec (Z.of_nat k) (-1)); [lia |].
Qed.

Lemma getattr_over_range (cls : objclass) (prefix attr : string) (t : TTree)
    (elems : list pyval) (n : nat) :
  tree_getattr t (prefix +:+ "_" +:+ attr) = Ok (VVec elems) ->
  forall a : nat,
    (a + n <= length elems)%nat ->
    map (fun o => _Object_getattr o attr t)
      (map (fun k => _Object_init cls k prefix) (map Z.of_nat (seq a n)))
    = map (fun x => Ok (Lambda x)) (take n (drop a elems)).
Proof.
  intros Hb. induction n as [| n IH]; intros a Hlen; [reflexivity |].
  destruct (lookup_lt_is_Some_2 elems a) as [x Hx]; [lia |].
  rewrite (drop_S elems x a Hx). cbn [seq map take].
  rewrite (getattr_in_range cls prefix attr t elems a x Hb Hx).
  f_equal. apply IH. lia.
Qed.

Lemma consume_and_read (self : _Collection) (attr : string) (t : TTree)
    (n : nat) (elems : list pyval) (fuel : nat) :
  _Collection_size self t = Ok (Z.of_nat n) ->
  tree_getattr t (c_prefix self +:+ "_" +:+ attr) = Ok (VVec elems) ->
  (n <= length elems)%nat ->
  (n < fuel)%nat ->
  exists objs : list _Object,
    consume (_Collection_iter_next self) fuel Created t = Some (Ok objs, t) /\
    map (fun o => _Object_getattr o attr t) objs
    = map (fun x => Ok (Lambda x)) (take n elems).
Proof.
  intros Hsize Hb Hlen Hfuel. eexists. split.
  - rewrite <- (consume_collection_from self t (range (Z.of_nat n)) fuel)
      by (rewrite range_length; lia).
    destruct fuel as [| fuel]; [lia |].
    cbn [consume _Collection_iter_next]. by rewrite Hsize.
  - unfold range. rewrite Nat2Z.id.
    apply (getattr_over_range (c_objclass self) (c_prefix self) attr t elems
             n Hb 0). lia.
Qed.

(** X12: iterating a collection and reading an attribute of each record
    yielded goes through the field's sequence from its start: when [size()]
    is n and the field of the attribute holds at least n elements, the reads
    on the n views return its first n elements, in order, and none raises. *)
Theorem iterate_and_read_attribute
    (self : _Collection) (attr : string) (t : TTree) (n : nat)
    (elems : list pyval) (fuel : nat) :
  _Collection_size self t = Ok (Z.of_nat n) ->
  tree_getattr t (c_prefix self +:+ "_" +:+ attr) = Ok (VVec elems) ->
  (n <= length elems)%nat ->
  (n < fuel)%nat ->
  exists objs : list _Object,
    consume (_Collection_iter_next self) fuel Created t = Some (Ok objs, t) /\
    map (fun o => _Object_getattr o attr t) objs
    = map (fun x => Ok (Lambda x)) (take n elems).
Proof. exact (consume_and_read self attr t n elems fuel). Qed.

Lemma iterate_and_read_attribute_witness :
  let t := _tree (snd (HGCalNtuple_getEvent 0 ntuple2)) in
  _Collection_size (RecHits_init "hit") t = Ok 3 /\
  exists objs : list _Object,
    consume (_Collection_iter_next (RecHits_init "hit")) 4 Created t
    = Some (Ok objs, t) /\
    map (fun o => _Object_getattr o "energy" t) objs
    = [Ok (Lambda q15); Ok (Lambda q25); Ok (Lambda q35)].
Proof.
  split; [reflexivity |].
  apply (iterate_and_read_attribute (RecHits_init "hit") "energy"
           (_tree (snd (HGCalNtuple_getEvent 0 ntuple2))) 3
           [q15; q25; q35] 4).
  - reflexivity.
  - reflexivity.
  - simpl. lia.
  - lia.
Defined.

(** X13: a collection is checked only when it is used: with a size branch
    that the tree does not have, [size()] raises AttributeError for that
    branch and so does the first step of an iteration, which yields nothing;
    [__getitem__] on the same collection still returns a view. *)
Theorem collection_without_size_branch
    (self : _Collection) (t : TTree) (fuel : nat) (k : Z) :
  buffer t !! c_sizeBranch self = None -> fuel <> O ->
  _Collection_size self t = Raise (AttributeError (c_sizeBranch self)) /\
  consume (_Collection_iter_next self) fuel Created t
  = Some (Raise (AttributeError (c_sizeBranch self)), t) /\
  _Collection_getitem self k
  = Ok (mkObject (c_objclass self) k (c_prefix self)).
Proof.
  intros Hmiss Hfuel.
  assert (Hsize : _Collection_size self t
                  = Raise (AttributeError (c_sizeBranch self))).
  { unfold _Collection_size, tree_getattr. by rewrite Hmiss. }
  split; [exact Hsize |]. split; [| reflexivity].
  destruct fuel as [| fuel]; [done |].
  cbn [consume _Collection_iter_next]. by rewrite Hsize.
Qed.

Lemma collection_without_size_branch_witness :
  buffer tree_hit_n !! c_sizeBranch (RecHits_init "hit") = None /\
  _Collection_size (RecHits_init "hit") tree_hit_n
  = Raise (AttributeError "hit_pt").
Proof.
  split; [reflexivity |].
  refine (proj1 (collection_without_size_branch (RecHits_init "hit")
                   tree_hit_n 1 0 _ _)).
  - reflexivity.
  - discriminate.
Defined.

(** X14: the size is read once, when the iteration starts. After the
    first view has been yielded on an entry where [size()] is n, the
    generator yields the views for 1, ..., n-1 on any tree state, also when
    another entry, with another size, has been loaded in between. *)
Theorem collection_iter_keeps_initial_size
    (self : _Collection) (t : TTree) (n : Z) :
  _Collection_size self t = Ok n -> 0 < n ->
  exists g : generator,
    _Collection_iter_next self Created t
    = (Ok (Some (_Object_init (c_objclass self) 0 (c_prefix self)), g), t) /\
    forall (t' : TTree) (fuel : nat),
      (Z.to_nat n <= fuel)%nat ->
      consume (_Collection_iter_next self) fuel g t'
      = Some (Ok (map (fun k => _Object_init (c_objclass self) k
                                  (c_prefix self))
                    (tail (range n))), t').
Proof.
  intros Hsize Hn. exists (Suspended (tail (range n))). split.
  - cbn [_Collection_iter_next]. rewrite Hsize. cbn [bind].
    unfold range. destruct (Z.to_nat n) as [| m] eqn:Hm; [lia |].
    reflexivity.
  - intros t' fuel Hfuel. apply consume_collection_from.
    unfold range. destruct (Z.to_nat n) as [| m] eqn:Hm; [lia |].
    cbn [seq map tail]. rewrite length_map, length_seq. lia.
Qed.

Lemma collection_iter_keeps_initial_size_witness :
  let at0 := _tree (snd (HGCalNtuple_getEvent 0 ntuple2)) in
  let at1 := _tree (snd (HGCalNtuple_getEvent 1 ntuple2)) in
  _Collection_size (RecHits_init "hit") at0 = Ok 3 /\
  _Collection_size (RecHits_init "hit") at1 = Ok 2 /\
  exists g : generator,
    _Collection_iter_next (RecHits_init "hit") Created at0
    = (Ok (Some (mkObject RecHit 0 "hit"), g), at0) /\
    consume (_Collection_iter_next (RecHits_init "hit")) 3 g at1
    = Some (Ok [mkObject RecHit 1 "hit"; mkObject RecHit 2 "hit"], at1).
Proof.
  split; [reflexivity |]. split; [reflexivity |].
  destruct (collection_iter_keeps_initial_size (RecHits_init "hit")
              (_tree (snd (HGCalNtuple_getEvent 0 ntuple2))) 3)
    as [g [Hfirst Hrest]]; [reflexivity | lia |].
  exists g. split; [exact Hfirst |].
  apply (Hrest (_tree (snd (HGCalNtuple_getEvent 1 ntuple2))) 3%nat).
  vm_compute. lia.
Defined.

(** ** The collections of an event *)

(** X18: for the four collections an Event hands out (rec hits, sim
    clusters and layer clusters with size attribute [pt], tracksters with
    [Id]), with the default prefix or a given one: when the size branch holds
    a sequence, [len()] is the number of its elements, and iterating the
    collection and reading the size attribute of each record returns exactly
    those elements, in order. *)
Theorem event_collections_iterate_size_attribute
    (ev : Event) (prefix : option string) (c : _Collection) (attr : string)
    (t : TTree) (elems : list pyval) (fuel : nat) :
  In (c, attr)
    [(Event_recHits ev prefix, "pt"); (Event_simClusters ev prefix, "pt");
     (Event_layerClusters ev prefix, "pt");
     (Event_tracksters ev prefix, "Id")] ->
  tree_getattr t (c_sizeBranch c) = Ok (VVec elems) ->
  (length elems < fuel)%nat ->
  _Collection_len c t = Ok (Z.of_nat (length elems)) /\
  exists objs : list _Object,
    consume (_Collection_iter_next c) fuel Created t = Some (Ok objs, t) /\
    map (fun o => _Object_getattr o attr t) objs
    = map (fun x => Ok (Lambda x)) elems.
Proof.
  intros Hin Hb Hfuel.
  assert (Hbranch : c_sizeBranch c = c_prefix c +:+ "_" +:+ attr).
  { cbn [In] in Hin.
    destruct Hin as [H | [H | [H | [H | []]]]];
      injection H as <- <-; reflexivity. }
  assert (Hsize : _Collection_size c t = Ok (Z.of_nat (length elems))).
  { unfold _Collection_size. by rewrite Hb. }
  split; [exact Hsize |].
  rewrite Hbranch in Hb.
  destruct (consume_and_read c attr t (length elems) elems fuel Hsize Hb
              (le_n _) Hfuel) as [objs [Hrun Hread]].
  exists objs. split; [exact Hrun |]. by rewrite Hread, firstn_all.
Qed.

Lemma event_collections_iterate_size_attribute_witness :
  let t := _tree (snd (HGCalNtuple_getEvent 1 ntuple2)) in
  tree_getattr t (c_sizeBranch (Event_recHits (mkEvent 1) (Some "hit")))
  = Ok (VVec [q35; q15]) /\
  _Collection_len (Event_recHits (mkEvent 1) (Some "hit")) t = Ok 2.
Proof.
  split; [reflexivity |].
  refine (proj1 (event_collections_iterate_size_attribute (mkEvent 1)
                   (Some "hit") (Event_recHits (mkEvent 1) (Some "hit")) "pt"
                   (_tree (snd (HGCalNtuple_getEvent 1 ntuple2)))
                   [q35; q15] 3 _ _ _)).
  - left. reflexivity.
  - reflexivity.
  - simpl. lia.
Defined.

(** ** Strings: the event key and the column names *)

Lemma append_cons (x : ascii) (a b : string) :
  String x a +:+ b = String x (a +:+ b).
Proof. reflexivity. Qed.

Lemma append_nil (b : string) : EmptyString +:+ b = b.
Proof. reflexivity. Qed.

Lemma append_assoc' (a b c : string) : (a +:+ b) +:+ c = a +:+ (b +:+ c).
Proof.
  induction a as [| x a IH]; [reflexivity |].
  rewrite !append_cons. by f_equal.
Qed.

Lemma contains_char_append (c : ascii) (a b : string) :
  contains_char c (a +:+ b) = contains_char c a || contains_char c b.
Proof.
  induction a as [| x a IH]; [reflexivity |].
  rewrite append_cons. cbn [contains_char]. by rewrite IH, orb_assoc.
Qed.

(** Two texts cut at the first occurrence of [c] are equal only if both
    parts are. *)
Lemma append_sep_inj (c : ascii) (a a' b b' : string) :
  contains_char c a = false -> contains_char c a' = false ->
  a +:+ String c b = a' +:+ String c b' -> a = a' /\ b = b'.
Proof.
  revert a'. induction a as [| x a IH]; intros [| x' a'] Ha Ha' Heq;
    rewrite ?append_cons, ?append_nil in Heq; cbn [contains_char] in Ha, Ha'.
  - by injection Heq as ->.
  - injection Heq as <- _. by rewrite Ascii.eqb_refl in Ha'.
  - injection Heq as -> _. by rewrite Ascii.eqb_refl in Ha.
  - injection Heq as <- Heq.
    apply orb_false_elim in Ha as [_ Ha].
    apply orb_false_elim in Ha' as [_ Ha'].
    destruct (IH a' Ha Ha' Heq) as [-> ->]. by split.
Qed.

Lemma pretty_N_go_no_colon (x : N) :
  forall s : string,
    contains_char ":" (pretty_N_go x s) = contains_char ":" s.
Proof.
  induction (N.lt_wf_0 x) as [x _ IH]; intros s.
  destruct (decide (x = 0)%N) as [-> | Hx]; [by rewrite pretty_N_go_0 |].
  rewrite pretty_N_go_step by lia.
  rewrite IH by (apply N.div_lt; lia).
  cbn [contains_char]. unfold pretty_N_char.
  by repeat case_match.
Qed.

Lemma pretty_Z_no_colon (z : Z) : contains_char ":" (pretty z) = false.
Proof.
  assert (HN : forall n : N, contains_char ":" (pretty n) = false).
  { intros n. unfold pretty, pretty_N. case_decide; [reflexivity |].
    by rewrite pretty_N_go_no_colon. }
  destruct z as [| p | p]; [reflexivity | apply HN |].
  unfold pretty, pretty_Z. rewrite append_cons, append_nil.
  cbn [contains_char]. apply (HN (N.pos p)).
Qed.

(** X15: for integer run, lumi and event numbers, [eventIdStr()] is the
    three numbers in decimal joined by colons, and it determines them: two
    events with the same string have the same (run, lumi, event). *)
Theorem eventIdStr_determines_eventId
    (ev ev' : Event) (t t' : TTree) (r l e r' l' e' : Z) :
  Event_eventId ev t = Ok (VInt r, VInt l, VInt e) ->
  Event_eventId ev' t' = Ok (VInt r', VInt l', VInt e') ->
  Event_eventIdStr ev t = Ok (pretty r +:+ ":" +:+ pretty l +:+ ":" +:+ pretty e)
  /\ (Event_eventIdStr ev t = Event_eventIdStr ev' t' ->
      r = r' /\ l = l' /\ e = e').
Proof.
  intros Hid Hid'. unfold Event_eventIdStr. rewrite Hid, Hid'.
  cbn [bind format_d]. split; [reflexivity |].
  intros Heq. injection Heq as Heq.
  rewrite !(append_cons ":"), !append_nil in Heq.
  apply append_sep_inj in Heq as [Hr Heq]; try apply pretty_Z_no_colon.
  apply append_sep_inj in Heq as [Hl He]; try apply pretty_Z_no_colon.
  repeat split; by apply (inj pretty).
Qed.

Lemma eventIdStr_determines_eventId_witness :
  let t := _tree (snd (HGCalNtuple_getEvent 0 ntuple5)) in
  Event_eventId (mkEvent 0) t = Ok (VInt 10, VInt 1, VInt 110) /\
  Event_eventIdStr (mkEvent 0) t
  = Ok (pretty 10 +:+ ":" +:+ pretty 1 +:+ ":" +:+ pretty 110).
Proof.
  split; [reflexivity |].
  refine (proj1 (eventIdStr_determines_eventId (mkEvent 0) (mkEvent 0)
                   (_tree (snd (HGCalNtuple_getEvent 0 ntuple5)))
                   (_tree (snd (HGCalNtuple_getEvent 0 ntuple5)))
                   10 1 110 10 1 110 _ _)); reflexivity.
Defined.

Lemma str_split_nonempty (sep : ascii) (s : string) : str_split sep s <> [].
Proof.
  destruct s as [| a s]; cbn; [discriminate |].
  destruct (Ascii.eqb a sep); [discriminate |].
  by destruct (str_split sep s).
Qed.

Lemma str_split_first (sep : ascii) (a rest : string) :
  contains_char sep a = false ->
  str_split sep (a +:+ String sep rest) = a :: str_split sep rest.
Proof.
  induction a as [| x a IH]; intros Ha.
  - rewrite append_nil. cbn [str_split]. by rewrite Ascii.eqb_refl.
  - cbn [contains_char] in Ha. apply orb_false_elim in Ha as [Hx Ha].
    rewrite append_cons. cbn [str_split]. by rewrite Hx, (IH Ha).
Qed.

Lemma str_join_split (sep : ascii) (s : string) :
  str_join (String sep EmptyString) (str_split sep s) = s.
Proof.
  induction s as [| x s IH]; [reflexivity |].
  pose proof (str_split_nonempty sep s) as Hne.
  cbn [str_split]. destruct (Ascii.eqb_spec x sep) as [-> | Hx].
  - destruct (str_split sep s) as [| h t]; [done |].
    cbn [str_join] in *. by rewrite append_nil, append_cons, append_nil, IH.
  - destruct (str_split sep s) as [| h t]; [done |].
    cbn [str_join] in *. destruct t; [| rewrite append_cons]; by rewrite IH.
Qed.

Lemma column_name_after_first_component (a rest : string) :
  contains_char "_" a = false ->
  str_join "_" (tail (str_split "_" (a +:+ "_" +:+ rest))) = rest.
Proof.
  intros Ha. rewrite append_cons, append_nil.
  rewrite (str_split_first "_" a rest Ha). cbn [tail].
  apply (str_join_split "_").
Qed.

Lemma prefix_append (p r : string) : String.prefix p (p +:+ r) = true.
Proof.
  induction p as [| x p IH]; [by destruct r |].
  rewrite append_cons. cbn [String.prefix]. by destruct (ascii_dec x x).
Qed.

Lemma prefix_split (p : string) :
  forall s : string,
    String.prefix p s = true -> exists r : string, s = p +:+ r.
Proof.
  induction p as [| x p IH]; intros s Hp; [by exists s |].
  destruct s as [| y s]; [discriminate |]. cbn [String.prefix] in Hp.
  destruct (ascii_dec x y) as [-> | _]; [| discriminate].
  destruct (IH s Hp) as [r ->]. by exists r.
Qed.

(** X16: for a prefix without an underscore, the column names that
    [getDataFrame(prefix)] computes are the attribute names of the selected
    branches: putting [prefix_] back in front of each column name gives the
    names of the selected branches, in the same order. *)
Theorem getDataFrame_names_are_attributes
    (listOfBranches : list string) (prefix : string) :
  contains_char "_" prefix = false ->
  map (fun name => prefix +:+ "_" +:+ name)
    (Event_getDataFrame_names
       (Event_getDataFrame_branches listOfBranches prefix))
  = Event_getDataFrame_branches listOfBranches prefix.
Proof.
  intros Hp. unfold Event_getDataFrame_branches, Event_getDataFrame_names.
  induction listOfBranches as [| br rest IH]; [reflexivity |].
  cbn [List.filter].
  destruct (String.prefix (prefix +:+ "_") br) eqn:Hbr; [| exact IH].
  cbn [map]. rewrite IH. f_equal.
  destruct (prefix_split _ _ Hbr) as [attr ->].
  rewrite append_assoc'.
  by rewrite (column_name_after_first_component prefix attr Hp).
Qed.

Lemma getDataFrame_names_are_attributes_witness :
  contains_char "_" "rechit" = false /\
  Event_getDataFrame_names
    (Event_getDataFrame_branches
       ["run"; "rechit_pt"; "simcluster_pt"; "rechit_energy"] "rechit")
  = ["pt"; "energy"] /\
  map (fun name => "rechit" +:+ "_" +:+ name)
    (Event_getDataFrame_names
       (Event_getDataFrame_branches
          ["run"; "rechit_pt"; "simcluster_pt"; "rechit_energy"] "rechit"))
  = ["rechit_pt"; "rechit_energy"].
Proof.
  split; [reflexivity |]. split; [reflexivity |].
  apply (getDataFrame_names_are_attributes
           ["run"; "rechit_pt"; "simcluster_pt"; "rechit_energy"] "rechit").
  reflexivity.
Defined.

(** X17: the column name drops only the first underscore-separated
    component of the branch name. With a prefix that itself has an
    underscore, [a_b] with no underscore in [a], the branch [a_b_attr] is
    selected and its column is named [b_attr], not [attr]. *)
Theorem getDataFrame_name_keeps_rest_of_prefix (a b attr : string) :
  contains_char "_" a = false ->
  Event_getDataFrame_names
    (Event_getDataFrame_branches
       [(a +:+ "_" +:+ b) +:+ "_" +:+ attr] (a +:+ "_" +:+ b))
  = [b +:+ "_" +:+ attr].
Proof.
  intros Ha. unfold Event_getDataFrame_branches, Event_getDataFrame_names.
  cbn [List.filter].
  replace ((a +:+ "_" +:+ b) +:+ "_" +:+ attr)
    with (((a +:+ "_" +:+ b) +:+ "_") +:+ attr)
    by (by rewrite !append_assoc').
  rewrite prefix_append. cbn [map]. f_equal.
  replace (((a +:+ "_" +:+ b) +:+ "_") +:+ attr)
    with (a +:+ "_" +:+ (b +:+ "_" +:+ attr))
    by (by rewrite !append_assoc').
  apply (column_name_after_first_component a _ Ha).
Qed.

Lemma getDataFrame_name_keeps_rest_of_prefix_witness :
  contains_char "_" "rechit" = false /\
  Event_getDataFrame_names
    (Event_getDataFrame_branches ["rechit_raw_pt"] "rechit_raw")
  = ["raw_pt"].
Proof.
  split; [reflexivity |].
  apply (getDataFrame_name_keeps_rest_of_prefix "rechit" "raw" "pt").
  reflexivity.
Defined.

(** ** Sanity checks on the example stores *)

Example eventIdStr_entry0 :
  Event_eventIdStr (mkEvent 0) (_tree (snd (HGCalNtuple_getEvent 0 ntuple5)))
  = Ok "10:1:110".
Proof. vm_compute. reflexivity. Qed.

Example second_hit_energy :
  let t := _tree (snd (HGCalNtuple_getEvent 1 ntuple5)) in
  (hit <- _Collection_getitem (Event_recHits (mkEvent 1) (Some "hit")) 1 ;;
   f <- _Object_getattr hit "energy" t ;;
   Ok (call f t)) = Ok (Some q25).
Proof. vm_compute. reflexivity. Qed.

Example third_hit_energy_out_of_range :
  let t := _tree (snd (HGCalNtuple_getEvent 1 ntuple5)) in
  (hit <- _Collection_getitem (Event_recHits (mkEvent 1) (Some "hit")) 2 ;;
   _Object_getattr hit "energy" t) = Raise IndexError.
Proof. vm_compute. reflexivity. Qed.

Example stale_record_past_the_end :
  let at0 := snd (HGCalNtuple_getEvent 0 ntuple2) in
  let at1 := snd (HGCalNtuple_getEvent 1 at0) in
  _Object_getattr (mkObject RecHit 2 "hit") "energy" (_tree at0)
  = Ok (Lambda q35) /\
  _Object_getattr (mkObject RecHit 2 "hit") "energy" (_tree at1)
  = Raise IndexError.
Proof. vm_compute. split; reflexivity. Qed.

Example empty_store_yields_nothing :
  fst <$> consume HGCalNtuple_iter_next 1 Created
            (mkHGCalNtuple (mkTTree 0 [] (-1) ∅) 0)
  = Some (Ok []).
Proof. vm_compute. reflexivity. Qed.
